(** * sigid_csv_to_json: the signal-catalogue converter of d3-waterfall

    A shallow embedding of [src/sigid_csv_to_json.py] and the properties
    of its [main] function.

    The script reads [db.csv] line by line, splits every line on ['*'],
    turns the lines with more than seven fields into a dictionary with the
    keys [freqStart], [freqStop], [description] and [url], drops the
    dictionaries whose two frequencies are both zero (printing a
    [Skipping: ...] line for each of them), sorts what is left by
    decreasing bandwidth and dumps the list as JSON into
    [frequencies.json].

    Modelling choices.
    - A Python [str] is a list of characters; a character is an 8-bit code
      point (Rocq's [ascii], read as the code points 0..255).
    - A Python [int] is a [Z].
    - The dictionary [current] always has the same four keys, so it is a
      record; [items] gives its entries in insertion order.
    - Effects (standard output, the two files, exceptions) live in a small
      state-and-exception monad [M].  The field [int_calls] of the state is
      ghost: it logs the arguments [int] was called with.
    - The builtins the script calls ([str.split], [int], [str], [print],
      [list.sort], [json.dump]) are modelled after CPython 3; the cap on
      the number of digits [int] accepts and failures to write the output
      file are outside the model. *)

From Stdlib Require Import ZArith List String Ascii Bool Lia Permutation.
Import ListNotations.

Local Open Scope Z_scope.
Local Open Scope list_scope.

(** ** Strings *)

Definition str := list ascii.

(** A string literal of the script. *)
Definition lit (s : string) : str := list_ascii_of_string s.

Definition code (c : ascii) : Z := Z.of_N (N_of_ascii c).

Definition chr_LF : ascii := "010"%char.
Definition chr_CR : ascii := "013"%char.
Definition chr_TAB : ascii := "009"%char.
Definition chr_BS : ascii := "008"%char.
Definition chr_FF : ascii := "012"%char.
Definition chr_quote : ascii := "034"%char.
Definition chr_apos : ascii := "039"%char.
Definition chr_backslash : ascii := "092"%char.

(** [c in s] *)
Fixpoint contains (c : ascii) (s : str) : bool :=
  match s with
  | [] => false
  | d :: s' => Ascii.eqb c d || contains c s'
  end.

(** [sep.join(parts)] *)
Fixpoint join (sep : str) (parts : list str) : str :=
  match parts with
  | [] => []
  | [p] => p
  | p :: ps => p ++ sep ++ join sep ps
  end.

(** [s.split(sep)] for a one-character separator: the fields between the
    separators, in order; a string without separator is its own single
    field. *)
Fixpoint split (sep : ascii) (s : str) : list str :=
  match s with
  | [] => [[]]
  | c :: s' =>
      if Ascii.eqb c sep then [] :: split sep s'
      else match split sep s' with
           | f :: fs => (c :: f) :: fs
           | [] => [[c]]
           end
  end.

(** Iterating over a text file opened with universal newlines: ["\r\n"]
    and a lone ["\r"] are read as ["\n"], and every line keeps its
    terminator. *)
Fixpoint universal_newlines (s : str) : str :=
  match s with
  | [] => []
  | c :: s' =>
      if Ascii.eqb c chr_CR then
        match s' with
        | d :: s'' =>
            if Ascii.eqb d chr_LF then chr_LF :: universal_newlines s''
            else chr_LF :: universal_newlines s'
        | [] => [chr_LF]
        end
      else c :: universal_newlines s'
  end.

Fixpoint keepends (s : str) : list str :=
  match s with
  | [] => []
  | c :: s' =>
      if Ascii.eqb c chr_LF then [c] :: keepends s'
      else match keepends s' with
           | l :: ls => (c :: l) :: ls
           | [] => [[c]]
           end
  end.

Definition file_lines (content : str) : list str :=
  keepends (universal_newlines content).

(** ** The builtin [int] on strings, in base 10 *)

(** The characters [int] strips from both ends. *)
Definition is_space (c : ascii) : bool :=
  match N_of_ascii c with
  | 9%N | 10%N | 11%N | 12%N | 13%N | 32%N | 133%N | 160%N => true
  | _ => false
  end.

Definition digit_of (c : ascii) : option Z :=
  let n := code c in
  if (48 <=? n) && (n <=? 57) then Some (n - 48) else None.

Fixpoint lstrip (s : str) : str :=
  match s with
  | c :: s' => if is_space c then lstrip s' else s
  | [] => []
  end.

Definition strip (s : str) : str := rev (lstrip (rev (lstrip s))).

(** The digits of a literal: at least one digit, and single underscores
    only between two digits.  [after_digit] says that the previous
    character was a digit. *)
Fixpoint int_digits (acc : Z) (after_digit : bool) (s : str) : option Z :=
  match s with
  | [] => if after_digit then Some acc else None
  | c :: s' =>
      match digit_of c with
      | Some d => int_digits (acc * 10 + d) true s'
      | None =>
          if Ascii.eqb c "_"%char && after_digit
          then int_digits acc false s'
          else None
      end
  end.

(** [int(s)]: [None] stands for the [ValueError] of a string that is not
    a decimal literal. *)
Definition py_int (s : str) : option Z :=
  match strip s with
  | c :: s' =>
      if Ascii.eqb c "-"%char then option_map Z.opp (int_digits 0 false s')
      else if Ascii.eqb c "+"%char then int_digits 0 false s'
      else int_digits 0 false (c :: s')
  | [] => None
  end.

(** ** The builtins [str] and [repr] *)

Definition chr (n : Z) : ascii := ascii_of_N (Z.to_N n).

Definition digit_chr (d : Z) : ascii := chr (48 + d).

(** Lower-case hexadecimal digit. *)
Definition hex_chr (d : Z) : ascii := if d <? 10 then chr (48 + d) else chr (87 + d).

(** The decimal digits of a natural number, most significant first.  The
    fuel is the number of binary digits, which is never fewer than the
    number of decimal ones. *)
Fixpoint nat_digits (fuel : nat) (n : Z) (acc : str) : str :=
  match fuel with
  | O => acc
  | S f =>
      if n <? 10 then digit_chr n :: acc
      else nat_digits f (n / 10) (digit_chr (n mod 10) :: acc)
  end.

Definition digits_fuel (n : Z) : nat := S (Z.to_nat (Z.log2 n)).

(** [str(z)] and [repr(z)] for an [int]. *)
Definition str_int (z : Z) : str :=
  if z <? 0 then "-"%char :: nat_digits (digits_fuel (- z)) (- z) []
  else nat_digits (digits_fuel z) z [].

(** The characters [repr] leaves as they are. *)
Definition repr_printable (c : ascii) : bool :=
  let n := code c in
  ((32 <=? n) && (n <=? 126)) || ((161 <=? n) && negb (n =? 173)).

Definition repr_char (quote c : ascii) : str :=
  if Ascii.eqb c quote || Ascii.eqb c chr_backslash then [chr_backslash; c]
  else if Ascii.eqb c chr_TAB then [chr_backslash; "t"%char]
  else if Ascii.eqb c chr_LF then [chr_backslash; "n"%char]
  else if Ascii.eqb c chr_CR then [chr_backslash; "r"%char]
  else if repr_printable c then [c]
  else [chr_backslash; "x"%char; hex_chr (code c / 16); hex_chr (code c mod 16)].

(** [repr(s)] for a [str]: single quotes, unless the string has a single
    quote and no double quote. *)
Definition repr_quote (s : str) : ascii :=
  if contains chr_apos s && negb (contains chr_quote s) then chr_quote else chr_apos.

Definition repr_str (s : str) : str :=
  repr_quote s :: flat_map (repr_char (repr_quote s)) s ++ [repr_quote s].

(** The values the script stores in a dictionary. *)
Inductive value : Type :=
| VInt (z : Z)
| VStr (s : str).

Definition repr_value (v : value) : str :=
  match v with
  | VInt z => str_int z
  | VStr s => repr_str s
  end.

(** [str(d)] for a dictionary with the entries [kvs], in insertion order. *)
Definition repr_item (kv : str * value) : str :=
  repr_str (fst kv) ++ lit ": " ++ repr_value (snd kv).

Definition str_dict (kvs : list (str * value)) : str :=
  lit "{" ++ join (lit ", ") (map repr_item kvs) ++ lit "}".

(** ** [list.sort] *)

Section Sort.
Context {A : Type} (lt : A -> A -> bool).

(** [x] goes in front of the first element that is not below it, hence
    in front of the equal elements already there. *)
Fixpoint insert (x : A) (l : list A) : list A :=
  match l with
  | [] => [x]
  | y :: l' => if lt y x then y :: insert x l' else x :: l
  end.

Definition stable_sort (l : list A) : list A := fold_right insert [] l.
End Sort.

(** [l.sort(key=key, reverse=reverse)]: the keys are compared with [<];
    a reversed sort turns the list around before and after, so that equal
    elements keep their order. *)
Definition list_sort {A : Type} (key : A -> Z) (reverse : bool) (l : list A) : list A :=
  let lt x y := key x <? key y in
  if reverse then rev (stable_sort lt (rev l)) else stable_sort lt l.

(** ** [json.dump] *)

(** Strings are written with [ensure_ascii]: everything outside
    [' '..'~'], the double quote and the backslash are escaped. *)
Definition json_escape (c : ascii) : str :=
  if Ascii.eqb c chr_quote then [chr_backslash; chr_quote]
  else if Ascii.eqb c chr_backslash then [chr_backslash; chr_backslash]
  else if Ascii.eqb c chr_LF then [chr_backslash; "n"%char]
  else if Ascii.eqb c chr_CR then [chr_backslash; "r"%char]
  else if Ascii.eqb c chr_TAB then [chr_backslash; "t"%char]
  else if Ascii.eqb c chr_BS then [chr_backslash; "b"%char]
  else if Ascii.eqb c chr_FF then [chr_backslash; "f"%char]
  else if (32 <=? code c) && (code c <=? 126) then [c]
  else [chr_backslash; "u"%char; "0"%char; "0"%char;
        hex_chr (code c / 16); hex_chr (code c mod 16)].

Definition json_str (s : str) : str :=
  chr_quote :: flat_map json_escape s ++ [chr_quote].

Definition json_value (v : value) : str :=
  match v with
  | VInt z => str_int z
  | VStr s => json_str s
  end.

(** [a < b] on strings: lexicographic on the code points. *)
Fixpoint str_ltb (a b : str) : bool :=
  match a, b with
  | _, [] => false
  | [], _ :: _ => true
  | c :: a', d :: b' =>
      if code c <? code d then true
      else if code d <? code c then false
      else str_ltb a' b'
  end.

Definition item_ltb (x y : str * value) : bool := str_ltb (fst x) (fst y).

Definition json_item (kv : str * value) : str :=
  json_str (fst kv) ++ lit ": " ++ json_value (snd kv).

(** A dictionary; with [sort_keys] the entries are written in the order
    of their keys.  The separators are the defaults [", "] and [": "],
    and there is no indentation. *)
Definition json_dict (sort_keys : bool) (kvs : list (str * value)) : str :=
  let kvs := if sort_keys then stable_sort item_ltb kvs else kvs in
  lit "{" ++ join (lit ", ") (map json_item kvs) ++ lit "}".

(** A list of dictionaries. *)
Definition json_dumps (sort_keys : bool) (l : list (list (str * value))) : str :=
  lit "[" ++ join (lit ", ") (map (json_dict sort_keys) l) ++ lit "]".

(** ** Effects *)

Inductive exn : Type :=
| FileNotFoundError
| IndexError
| ValueError.

Inductive result (A : Type) : Type :=
| Ok (a : A)
| Raise (e : exn).

Arguments Ok {A} a.
Arguments Raise {A} e.

(** What the script reads and writes: the content of [db.csv] ([None]
    when there is no such file), the content of [frequencies.json]
    ([None] as long as it does not exist), the text printed so far, and
    the log of the calls to [int]. *)
Record world : Type := mkWorld {
  db_csv : option str;
  frequencies_json : option str;
  stdout : str;
  int_calls : list str
}.

Definition M (A : Type) : Type := world -> result A * world.

Definition ret {A : Type} (a : A) : M A := fun w => (Ok a, w).

Definition bind {A B : Type} (m : M A) (k : A -> M B) : M B :=
  fun w =>
    match m w with
    | (Ok a, w') => k a w'
    | (Raise e, w') => (Raise e, w')
    end.

Definition raise {A : Type} (e : exn) : M A := fun w => (Raise e, w).

Notation "x <- m ;; k" := (bind m (fun x => k))
  (at level 61, m at next level, right associativity).
Notation "m ;;; k" := (bind m (fun _ => k))
  (at level 61, right associativity).

(** [open(name, "r")] of [db.csv], read as a whole. *)
Definition open_db_csv : M str :=
  fun w =>
    match db_csv w with
    | Some content => (Ok content, w)
    | None => (Raise FileNotFoundError, w)
    end.

(** [open(name, "w")] of [frequencies.json] followed by the writes of
    [json.dump]. *)
Definition write_frequencies_json (text : str) : M unit :=
  fun w => (Ok tt, mkWorld (db_csv w) (Some text) (stdout w) (int_calls w)).

(** [print(s)] *)
Definition print (s : str) : M unit :=
  fun w => (Ok tt, mkWorld (db_csv w) (frequencies_json w)
                           (stdout w ++ s ++ [chr_LF]) (int_calls w)).

(** [int(s)] *)
Definition int (s : str) : M Z :=
  fun w =>
    let w' := mkWorld (db_csv w) (frequencies_json w) (stdout w) (int_calls w ++ [s]) in
    match py_int s with
    | Some z => (Ok z, w')
    | None => (Raise ValueError, w')
    end.

(** [data[i]] *)
Definition getitem (data : list str) (i : nat) : M str :=
  match nth_error data i with
  | Some x => ret x
  | None => raise IndexError
  end.

(** [for x in xs: acc = body x acc] *)
Fixpoint for_each {A B : Type} (xs : list A) (body : A -> B -> M B) (acc : B) : M B :=
  match xs with
  | [] => ret acc
  | x :: xs' => acc' <- body x acc ;; for_each xs' body acc'
  end.

(** ** The script *)

(** The dictionary [current]. *)
Record SignalRecord : Type := mkRecord {
  freqStart : Z;
  freqStop : Z;
  description : str;
  url : str
}.

(** Its entries, in the order the script writes them. *)
Definition items (r : SignalRecord) : list (str * value) :=
  [ (lit "freqStart", VInt (freqStart r));
    (lit "freqStop", VInt (freqStop r));
    (lit "description", VStr (description r));
    (lit "url", VStr (url r)) ].

(** The sort key [lambda x: x["freqStop"] - x["freqStart"]]. *)
Definition bandwidth (x : SignalRecord) : Z := freqStop x - freqStart x.

(** The body of the loop over the lines; [out] is the list built so far. *)
Definition loop_body (line : str) (out : list SignalRecord) : M (list SignalRecord) :=
  let data := split "*"%char line in
  if (7 <? List.length data)%nat then
    d0 <- getitem data 0 ;;
    d1 <- getitem data 1 ;;
    start <- int d1 ;;
    d2 <- getitem data 2 ;;
    stop <- int d2 ;;
    d7 <- getitem data 7 ;;
    let current := mkRecord start stop d0 d7 in
    if negb (start =? 0) || negb (stop =? 0) then
      ret (out ++ [current])
    else
      print (lit "Skipping: " ++ str_dict (items current)) ;;;
      ret out
  else ret out.

Definition main : M unit :=
  content <- open_db_csv ;;
  out <- for_each (file_lines content) loop_body [] ;;
  let out := list_sort bandwidth true out in
  write_frequencies_json (json_dumps true (map items out)).

(** A first run: nothing is on disk but [db.csv]. *)
Definition initial (content : str) : world := mkWorld (Some content) None [] [].

(** ** Reading JSON back

    A reader for the JSON texts whose numbers are integers and whose
    strings decode to 8-bit code points, after [json.loads]: it is what
    the round trip of the output file is stated with. *)

#[local] Set Warnings "-register-all".

Inductive json : Type :=
| JInt (z : Z)
| JStr (s : str)
| JArr (elems : list json)
| JObj (members : list (str * json)).

Definition json_ws (c : ascii) : bool :=
  Ascii.eqb c " "%char || Ascii.eqb c chr_TAB || Ascii.eqb c chr_LF || Ascii.eqb c chr_CR.

Fixpoint skip_ws (s : str) : str :=
  match s with
  | c :: s' => if json_ws c then skip_ws s' else s
  | [] => []
  end.

Definition hex_val (c : ascii) : option Z :=
  let n := code c in
  if (48 <=? n) && (n <=? 57) then Some (n - 48)
  else if (97 <=? n) && (n <=? 102) then Some (n - 87)
  else if (65 <=? n) && (n <=? 70) then Some (n - 55)
  else None.

Definition hex4 (a b c d : ascii) : option Z :=
  match hex_val a, hex_val b, hex_val c, hex_val d with
  | Some x, Some y, Some z, Some t => Some (((x * 16 + y) * 16 + z) * 16 + t)
  | _, _, _, _ => None
  end.

(** The character a one-letter escape stands for. *)
Definition unescape (e : ascii) : option ascii :=
  if Ascii.eqb e chr_quote then Some chr_quote
  else if Ascii.eqb e chr_backslash then Some chr_backslash
  else if Ascii.eqb e "/"%char then Some "/"%char
  else if Ascii.eqb e "b"%char then Some chr_BS
  else if Ascii.eqb e "f"%char then Some chr_FF
  else if Ascii.eqb e "n"%char then Some chr_LF
  else if Ascii.eqb e "r"%char then Some chr_CR
  else if Ascii.eqb e "t"%char then Some chr_TAB
  else None.

Definition cons_fst {A B : Type} (a : A) (r : option (list A * B)) : option (list A * B) :=
  match r with
  | Some (l, b) => Some (a :: l, b)
  | None => None
  end.

(** The characters of a string literal, from behind its opening quote up
    to its closing quote: the decoded string and the text that follows. *)
Fixpoint parse_chars (s : str) : option (str * str) :=
  match s with
  | [] => None
  | c :: s' =>
      if Ascii.eqb c chr_quote then Some ([], s')
      else if Ascii.eqb c chr_backslash then
        match s' with
        | [] => None
        | e :: s'' =>
            if Ascii.eqb e "u"%char then
              match s'' with
              | h1 :: h2 :: h3 :: h4 :: r =>
                  match hex4 h1 h2 h3 h4 with
                  | Some n => if n <? 256 then cons_fst (chr n) (parse_chars r) else None
                  | None => None
                  end
              | _ => None
              end
            else
              match unescape e with
              | Some d => cons_fst d (parse_chars s'')
              | None => None
              end
        end
      else if code c <? 32 then None
      else cons_fst c (parse_chars s')
  end.

Fixpoint take_digits (acc : Z) (s : str) : Z * str :=
  match s with
  | c :: s' =>
      match digit_of c with
      | Some d => take_digits (acc * 10 + d) s'
      | None => (acc, s)
      end
  | [] => (acc, [])
  end.

(** [0] or a digit other than [0] followed by digits. *)
Definition parse_nat (s : str) : option (Z * str) :=
  match s with
  | c :: s' =>
      match digit_of c with
      | Some d => if d =? 0 then Some (0, s') else Some (take_digits d s')
      | None => None
      end
  | [] => None
  end.

(** A fraction or an exponent would make the number a float. *)
Definition float_follows (s : str) : bool :=
  match s with
  | c :: _ => Ascii.eqb c "."%char || Ascii.eqb c "e"%char || Ascii.eqb c "E"%char
  | [] => false
  end.

Definition parse_number (s : str) : option (json * str) :=
  let r := match s with
           | c :: s' =>
               if Ascii.eqb c "-"%char
               then match parse_nat s' with
                    | Some (n, rest) => Some (- n, rest)
                    | None => None
                    end
               else parse_nat s
           | [] => None
           end in
  match r with
  | Some (z, rest) => if float_follows rest then None else Some (JInt z, rest)
  | None => None
  end.

Fixpoint parse_value (fuel : nat) (s : str) : option (json * str) :=
  match fuel with
  | O => None
  | S f =>
      match skip_ws s with
      | [] => None
      | c :: r =>
          if Ascii.eqb c chr_quote then
            match parse_chars r with
            | Some (x, rest) => Some (JStr x, rest)
            | None => None
            end
          else if Ascii.eqb c "["%char then
            match skip_ws r with
            | d :: r' =>
                if Ascii.eqb d "]"%char then Some (JArr [], r')
                else match parse_elements f r with
                     | Some (vs, rest) => Some (JArr vs, rest)
                     | None => None
                     end
            | [] => None
            end
          else if Ascii.eqb c "{"%char then
            match skip_ws r with
            | d :: r' =>
                if Ascii.eqb d "}"%char then Some (JObj [], r')
                else match parse_members f r with
                     | Some (kvs, rest) => Some (JObj kvs, rest)
                     | None => None
                     end
            | [] => None
            end
          else parse_number (c :: r)
      end
  end

with parse_elements (fuel : nat) (s : str) : option (list json * str) :=
  match fuel with
  | O => None
  | S f =>
      match parse_value f s with
      | Some (v, r) =>
          match skip_ws r with
          | c :: r' =>
              if Ascii.eqb c ","%char then cons_fst v (parse_elements f r')
              else if Ascii.eqb c "]"%char then Some ([v], r')
              else None
          | [] => None
          end
      | None => None
      end
  end

with parse_members (fuel : nat) (s : str) : option (list (str * json) * str) :=
  match fuel with
  | O => None
  | S f =>
      match skip_ws s with
      | c :: r =>
          if Ascii.eqb c chr_quote then
            match parse_chars r with
            | Some (k, r1) =>
                match skip_ws r1 with
                | d :: r2 =>
                    if Ascii.eqb d ":"%char then
                      match parse_value f r2 with
                      | Some (v, r3) =>
                          match skip_ws r3 with
                          | e :: r4 =>
                              if Ascii.eqb e ","%char then cons_fst (k, v) (parse_members f r4)
                              else if Ascii.eqb e "}"%char then Some ([(k, v)], r4)
                              else None
                          | [] => None
                          end
                      | None => None
                      end
                    else None
                | [] => None
                end
            | None => None
            end
          else None
      | [] => None
      end
  end.

(** A whole document: one value, and nothing but white space after it. *)
Definition json_loads (s : str) : option json :=
  match parse_value (S (List.length s)) s with
  | Some (v, rest) => match skip_ws rest with [] => Some v | _ :: _ => None end
  | None => None
  end.

Definition json_of_value (v : value) : json :=
  match v with
  | VInt z => JInt z
  | VStr s => JStr s
  end.

Definition json_of_dict (kvs : list (str * value)) : json :=
  JObj (map (fun kv => (fst kv, json_of_value (snd kv))) kvs).

(** * Vocabulary of the statements *)

(** The fields of a line, and the field at an index (empty when the line
    has no such field). *)
Definition fields (line : str) : list str := split "*"%char line.

Definition field (i : nat) (line : str) : str := nth i (fields line) [].

(** The state after [int] was called on [args]. *)
Definition logged (args : list str) (w : world) : world :=
  mkWorld (db_csv w) (frequencies_json w) (stdout w) (int_calls w ++ args).

(** The state after [text] went to standard output. *)
Definition printed (text : str) (w : world) : world :=
  mkWorld (db_csv w) (frequencies_json w) (stdout w ++ text) (int_calls w).

(** The state after [text] was written to [frequencies.json]. *)
Definition written (text : str) (w : world) : world :=
  mkWorld (db_csv w) (Some text) (stdout w) (int_calls w).

(** The dictionary a line with parsed frequencies [a] and [b] gives. *)
Definition record_of (line : str) (a b : Z) : SignalRecord :=
  mkRecord a b (field 0 line) (field 7 line).

(** The line the script prints for a dropped dictionary. *)
Definition diagnostic (r : SignalRecord) : str :=
  lit "Skipping: " ++ str_dict (items r) ++ [chr_LF].

(** A string [int] accepts. *)
Definition parseable (s : str) : bool :=
  match py_int s with Some _ => true | None => false end.

(** A line with enough fields, one of whose frequency fields is no
    decimal literal. *)
Definition malformed (line : str) : bool :=
  (7 <? List.length (fields line))%nat
  && negb (parseable (field 1 line) && parseable (field 2 line)).

(** What a line adds to [out]: its dictionary, or nothing. *)
Definition retained (line : str) : list SignalRecord :=
  if (7 <? List.length (fields line))%nat then
    match py_int (field 1 line), py_int (field 2 line) with
    | Some a, Some b => if (a =? 0) && (b =? 0) then [] else [record_of line a b]
    | _, _ => []
    end
  else [].

(** What a line adds to standard output: its diagnostic, or nothing. *)
Definition skipped (line : str) : str :=
  if (7 <? List.length (fields line))%nat then
    match py_int (field 1 line), py_int (field 2 line) with
    | Some a, Some b => if (a =? 0) && (b =? 0) then diagnostic (record_of line a b) else []
    | _, _ => []
    end
  else [].

(** The list handed to [json.dump]. *)
Definition output_array (content : str) : list SignalRecord :=
  list_sort bandwidth true (flat_map retained (file_lines content)).

(** The keys of [l] are related by [R], each one to all that follow. *)
Fixpoint ordered {A : Type} (key : A -> Z) (R : Z -> Z -> Prop) (l : list A) : Prop :=
  match l with
  | [] => True
  | x :: l' => Forall (fun y => R (key x) (key y)) l' /\ ordered key R l'
  end.

(** The elements of [l] whose key is [v], in the order they have in [l]. *)
Definition with_key {A : Type} (key : A -> Z) (v : Z) (l : list A) : list A :=
  filter (fun x => key x =? v) l.

(** A character of the range [' '..'~']. *)
Definition printable (c : ascii) : bool := (32 <=? code c) && (code c <=? 126).

(** Any character but the line feed. *)
Definition not_LF (c : ascii) : bool := negb (Ascii.eqb c chr_LF).


(** The example lines of the specification. *)
Definition fm_radio_line : str :=
  lit "FM Radio*88000000*108000000*Broadcast*x*x*x*http://example.com/fm" ++ [chr_LF].

Definition invalid_line : str :=
  lit "Invalid*0*0*x*x*x*x*http://example.com/invalid" ++ [chr_LF].

Definition short_line : str := lit "only*5*fields*in*here" ++ [chr_LF].

Definition malformed_line : str := lit "Bad*12k*13*x*x*x*x*http://example.com/bad" ++ [chr_LF].

Definition inverted_line : str := lit "Inverted*500*100*x*x*x*x*u*more" ++ [chr_LF].

(** A line fails the conditions for being kept: fewer than 8 fields, or
    two frequencies that are both 0. *)
Definition dropped (line : str) : Prop :=
  (List.length (fields line) < 8)%nat
  \/ (py_int (field 1 line) = Some 0 /\ py_int (field 2 line) = Some 0).

(** The text after a number starts with no character that would continue
    the number. *)
Definition closes_number (t : str) : bool :=
  match t with
  | c :: _ =>
      match digit_of c with
      | Some _ => false
      | None => negb (float_follows t)
      end
  | [] => true
  end.

(** The JSON object of a dictionary of the script, keys in lexicographic
    order. *)
Definition json_of_record (r : SignalRecord) : json :=
  JObj [ (lit "description", JStr (description r));
         (lit "freqStart", JInt (freqStart r));
         (lit "freqStop", JInt (freqStop r));
         (lit "url", JStr (url r)) ].

(** The entries of a dictionary in the order [json.dump] writes them. *)
Definition written_order (sort_keys : bool) (kvs : list (str * value)) : list (str * value) :=
  if sort_keys then stable_sort item_ltb kvs else kvs.

(** The dictionary the script makes of [fm_radio_line], and the one the
    specification's example expects. *)
Definition fm_radio_record : SignalRecord :=
  mkRecord 88000000 108000000 (lit "FM Radio") (lit "http://example.com/fm" ++ [chr_LF]).

Definition fm_radio_expected : SignalRecord :=
  mkRecord 88000000 108000000 (lit "FM Radio") (lit "http://example.com/fm").

(** A small [db.csv]: a kept line, a line with two zero frequencies, a
    short line and a line whose frequencies are the wrong way round. *)
Definition sample_db : str :=
  fm_radio_line ++ invalid_line ++ short_line ++ inverted_line.

(** Where a scan of a JSON text is: outside the string literals, inside
    one, or behind a backslash inside one. *)
Inductive scan : Type :=
| Outside
| Inside
| Escaped.

Definition scan_step (st : scan) (c : ascii) : scan :=
  match st with
  | Outside => if Ascii.eqb c chr_quote then Inside else Outside
  | Inside =>
      if Ascii.eqb c chr_backslash then Escaped
      else if Ascii.eqb c chr_quote then Outside
      else Inside
  | Escaped => Inside
  end.

Definition scan_end (st : scan) (s : str) : scan := fold_left scan_step s st.

(** The characters of a JSON text that are outside its string literals
    (the quotes of a literal belong to the literal). *)
Fixpoint between_strings (st : scan) (s : str) : str :=
  match s with
  | [] => []
  | c :: s' =>
      match st, scan_step st c with
      | Outside, Outside => c :: between_strings Outside s'
      | _, st' => between_strings st' s'
      end
  end.

(** Every white-space character of [s] is a space directly behind a comma
    or a colon; [prev] is the character in front of [s]. *)
Fixpoint separator_spaces (prev : ascii) (s : str) : bool :=
  match s with
  | [] => true
  | c :: s' =>
      (negb (json_ws c)
       || (Ascii.eqb c " "%char && (Ascii.eqb prev ","%char || Ascii.eqb prev ":"%char)))
      && separator_spaces c s'
  end.

(** A piece of JSON text that ends outside the string literals and whose
    white space between the tokens is separator white space only. *)
Definition tidy (s : str) : Prop :=
  scan_end Outside s = Outside
  /\ forall prev, separator_spaces prev (between_strings Outside s) = true.

(** A literal between double quotes. *)
Definition quoted (s : string) : str := chr_quote :: lit s ++ [chr_quote].

(** The text the script writes for [fm_radio_line]; the line feed of the
    [url] is written as a backslash and the letter [n]. *)
Definition fm_radio_text : str :=
  lit "[{" ++ quoted "description" ++ lit ": " ++ quoted "FM Radio" ++ lit ", "
  ++ quoted "freqStart" ++ lit ": 88000000, "
  ++ quoted "freqStop" ++ lit ": 108000000, "
  ++ quoted "url" ++ lit ": " ++ quoted "http://example.com/fm\n" ++ lit "}]".

(** A line with at least 8 fields whose two frequencies are both 0. *)
Definition zero_zero (line : str) : bool :=
  (7 <? List.length (fields line))%nat
  && match py_int (field 1 line), py_int (field 2 line) with
     | Some a, Some b => (a =? 0) && (b =? 0)
     | _, _ => false
     end.

(** A line the script keeps, as a test. *)
Definition kept_line (line : str) : bool :=
  (7 <? List.length (fields line))%nat
  && match py_int (field 1 line), py_int (field 2 line) with
     | Some a, Some b => negb ((a =? 0) && (b =? 0))
     | _, _ => false
     end.

(** A state without [db.csv]. *)
Definition no_db : world := mkWorld None None [] [].

(** A text with every line feed turned into carriage return, line feed. *)
Definition to_crlf (s : str) : str :=
  flat_map (fun c => if Ascii.eqb c chr_LF then [chr_CR; chr_LF] else [c]) s.

(** A [db.csv] whose second line is malformed. *)
Definition failing_db : str := invalid_line ++ malformed_line ++ invalid_line.

(** * Properties *)

(** ** The loop body, case by case *)

Lemma loop_body_short (line : str) (out : list SignalRecord) (w : world) :
  (List.length (fields line) <= 7)%nat ->
  loop_body line out w = (Ok out, w).
Proof.
  intros H. unfold loop_body. fold (fields line).
  destruct (Nat.ltb_spec 7 (List.length (fields line))) as [H'|H']; [lia|reflexivity].
Qed.

Lemma loop_body_long (line : str) (out : list SignalRecord) (w : world) :
  (8 <= List.length (fields line))%nat ->
  loop_body line out w =
  match py_int (field 1 line) with
  | None => (Raise ValueError, logged [field 1 line] w)
  | Some a =>
      match py_int (field 2 line) with
      | None => (Raise ValueError, logged [field 1 line; field 2 line] w)
      | Some b =>
          if (a =? 0) && (b =? 0)
          then (Ok out,
                printed (diagnostic (record_of line a b))
                        (logged [field 1 line; field 2 line] w))
          else (Ok (out ++ [record_of line a b]),
                logged [field 1 line; field 2 line] w)
      end
  end.
Proof.
  intros H. unfold loop_body, record_of, field. fold (fields line).
  destruct (Nat.ltb_spec 7 (List.length (fields line))) as [H'|H']; [clear H|lia].
  destruct (fields line) as [|x0 [|x1 [|x2 [|x3 [|x4 [|x5 [|x6 [|x7 rest]]]]]]]];
    simpl in H'; try lia.
  unfold bind, getitem, ret, int, logged, printed, diagnostic, print; simpl.
  destruct (py_int x1) as [a|]; simpl; [|reflexivity].
  destruct (py_int x2) as [b|]; simpl.
  - destruct (a =? 0), (b =? 0); simpl; rewrite <- ?app_assoc; simpl; reflexivity.
  - rewrite <- app_assoc. reflexivity.
Qed.

Lemma malformed_iff (line : str) :
  malformed line = true <->
  (8 <= List.length (fields line))%nat
  /\ (py_int (field 1 line) = None \/ py_int (field 2 line) = None).
Proof.
  unfold malformed, parseable.
  destruct (Nat.ltb_spec 7 (List.length (fields line))) as [H|H]; simpl.
  - destruct (py_int (field 1 line)), (py_int (field 2 line)); simpl;
      (split;
       [ intros E; first [discriminate | split; [lia|auto]]
       | intros [_ [E|E]]; first [discriminate | reflexivity] ]).
  - split; [discriminate|]. intros [? _]. lia.
Qed.

(** A line that is not malformed is processed without an exception. *)
Lemma loop_body_ok (line : str) (out : list SignalRecord) (w : world) :
  malformed line = false ->
  exists w',
    loop_body line out w = (Ok (out ++ retained line), w')
    /\ db_csv w' = db_csv w
    /\ frequencies_json w' = frequencies_json w
    /\ stdout w' = stdout w ++ skipped line.
Proof.
  unfold malformed, parseable, retained, skipped. intros H.
  destruct (Nat.ltb_spec 7 (List.length (fields line))) as [L|L]; simpl in H.
  - rewrite (loop_body_long line out w) by lia.
    destruct (py_int (field 1 line)) as [a|]; [|discriminate].
    destruct (py_int (field 2 line)) as [b|]; [|discriminate].
    destruct ((a =? 0) && (b =? 0)); rewrite ?app_nil_r;
      eexists; (split; [reflexivity|]); simpl; rewrite ?app_nil_r; auto.
  - rewrite (loop_body_short line out w) by lia.
    exists w. rewrite !app_nil_r. auto.
Qed.

(** A malformed line raises [ValueError], and touches neither file. *)
Lemma loop_body_raise (line : str) (out : list SignalRecord) (w : world) :
  malformed line = true ->
  exists w',
    loop_body line out w = (Raise ValueError, w')
    /\ db_csv w' = db_csv w
    /\ frequencies_json w' = frequencies_json w.
Proof.
  intros H. apply malformed_iff in H. destruct H as [L H].
  rewrite (loop_body_long line out w) by lia.
  destruct (py_int (field 1 line)) as [a|].
  - destruct (py_int (field 2 line)) as [b|].
    + destruct H; discriminate.
    + eexists; split; [reflexivity|]. auto.
  - eexists; split; [reflexivity|]. auto.
Qed.

(** ** The loop *)

Lemma for_each_ok (lines : list str) :
  forall (acc : list SignalRecord) (w : world),
    forallb (fun l => negb (malformed l)) lines = true ->
    exists w',
      for_each lines loop_body acc w = (Ok (acc ++ flat_map retained lines), w')
      /\ db_csv w' = db_csv w
      /\ frequencies_json w' = frequencies_json w
      /\ stdout w' = stdout w ++ flat_map skipped lines.
Proof.
  induction lines as [|l ls IH]; intros acc w H; simpl.
  - exists w. unfold ret. rewrite !app_nil_r. auto.
  - simpl in H. apply andb_true_iff in H. destruct H as [Hl Hls].
    apply negb_true_iff in Hl.
    destruct (loop_body_ok l acc w Hl) as (w1 & E1 & D1 & F1 & S1).
    destruct (IH (acc ++ retained l) w1 Hls) as (w2 & E2 & D2 & F2 & S2).
    exists w2. unfold bind. rewrite E1, E2, <- app_assoc.
    repeat split; try congruence.
    rewrite S2, S1, <- app_assoc. reflexivity.
Qed.

Lemma for_each_raise (lines : list str) :
  forall (acc : list SignalRecord) (w : world),
    existsb malformed lines = true ->
    exists w',
      for_each lines loop_body acc w = (Raise ValueError, w')
      /\ db_csv w' = db_csv w
      /\ frequencies_json w' = frequencies_json w.
Proof.
  induction lines as [|l ls IH]; intros acc w H; simpl in H; [discriminate|].
  simpl. unfold bind.
  destruct (malformed l) eqn:Hl.
  - destruct (loop_body_raise l acc w Hl) as (w1 & E1 & D1 & F1).
    exists w1. rewrite E1. auto.
  - simpl in H.
    destruct (loop_body_ok l acc w Hl) as (w1 & E1 & D1 & F1 & _).
    destruct (IH (acc ++ retained l) w1 H) as (w2 & E2 & D2 & F2).
    exists w2. rewrite E1, E2. repeat split; congruence.
Qed.

Lemma malformed_dichotomy (lines : list str) :
  existsb malformed lines = negb (forallb (fun l => negb (malformed l)) lines).
Proof.
  induction lines as [|l ls IH]; simpl; [reflexivity|].
  rewrite IH. destruct (malformed l); reflexivity.
Qed.

(** ** The whole script *)

Lemma main_ok (w : world) (content : str) :
  db_csv w = Some content ->
  existsb malformed (file_lines content) = false ->
  exists w',
    main w = (Ok tt, w')
    /\ frequencies_json w' = Some (json_dumps true (map items (output_array content)))
    /\ stdout w' = stdout w ++ flat_map skipped (file_lines content).
Proof.
  intros D H. rewrite malformed_dichotomy in H. apply negb_false_iff in H.
  destruct (for_each_ok (file_lines content) [] w H) as (w1 & E1 & D1 & F1 & S1).
  unfold main, bind, open_db_csv. rewrite D, E1.
  eexists. split; [reflexivity|]. simpl. auto.
Qed.

Lemma main_raise (w : world) (content : str) :
  db_csv w = Some content ->
  existsb malformed (file_lines content) = true ->
  exists w',
    main w = (Raise ValueError, w')
    /\ frequencies_json w' = frequencies_json w.
Proof.
  intros D H.
  destruct (for_each_raise (file_lines content) [] w H) as (w1 & E1 & D1 & F1).
  unfold main, bind, open_db_csv. rewrite D, E1.
  eexists. split; [reflexivity|]. auto.
Qed.

(** A normal end: no line was malformed, and the sorted list is what was
    written. *)
Lemma main_normal_end (w : world) (content : str) :
  db_csv w = Some content ->
  fst (main w) = Ok tt ->
  existsb malformed (file_lines content) = false
  /\ frequencies_json (snd (main w))
     = Some (json_dumps true (map items (output_array content))).
Proof.
  intros D H. destruct (existsb malformed (file_lines content)) eqn:X.
  - destruct (main_raise w content D X) as (w' & E & _).
    rewrite E in H. discriminate.
  - destruct (main_ok w content D X) as (w' & E & F & _).
    rewrite E. simpl. auto.
Qed.

(** ** Sorting by a key *)

Section SortByKey.
Context {A : Type} (key : A -> Z).

Let lt (x y : A) : bool := key x <? key y.

Lemma insert_perm (x : A) (l : list A) : Permutation (insert lt x l) (x :: l).
Proof.
  induction l as [|y l IH]; simpl; [reflexivity|].
  destruct (lt y x); [|reflexivity].
  rewrite IH. apply perm_swap.
Qed.

Lemma stable_sort_perm (l : list A) : Permutation (stable_sort lt l) l.
Proof.
  induction l as [|x l IH]; simpl; [reflexivity|].
  rewrite insert_perm. apply perm_skip, IH.
Qed.

Lemma insert_ordered (x : A) (l : list A) :
  ordered key Z.le l -> ordered key Z.le (insert lt x l).
Proof.
  induction l as [|y l IH]; simpl; intros H.
  - split; [constructor|exact I].
  - destruct H as [Hy Hl]. unfold lt at 1.
    destruct (Z.ltb_spec (key y) (key x)) as [L|L]; simpl.
    + split; [|apply IH, Hl].
      eapply Permutation_Forall.
      * symmetry. apply insert_perm.
      * constructor; [lia|exact Hy].
    + split; [|split; assumption].
      constructor; [exact L|].
      eapply Forall_impl; [|exact Hy]. simpl. intros; lia.
Qed.

Lemma stable_sort_ordered (l : list A) : ordered key Z.le (stable_sort lt l).
Proof.
  induction l as [|x l IH]; simpl; [exact I|].
  apply insert_ordered, IH.
Qed.

Lemma insert_with_key (v : Z) (x : A) (l : list A) :
  with_key key v (insert lt x l) = with_key key v (x :: l).
Proof.
  unfold with_key.
  induction l as [|y l IH]; simpl; [reflexivity|].
  unfold lt at 1.
  destruct (Z.ltb_spec (key y) (key x)) as [L|L]; simpl; [|reflexivity].
  rewrite IH. simpl.
  destruct (Z.eqb_spec (key y) v), (Z.eqb_spec (key x) v); try reflexivity.
  lia.
Qed.

Lemma stable_sort_with_key (v : Z) (l : list A) :
  with_key key v (stable_sort lt l) = with_key key v l.
Proof.
  induction l as [|x l IH]; simpl; [reflexivity|].
  rewrite insert_with_key. unfold with_key in *. simpl. rewrite IH. reflexivity.
Qed.

Lemma ordered_app (R : Z -> Z -> Prop) (l1 l2 : list A) :
  ordered key R (l1 ++ l2) <->
  ordered key R l1 /\ ordered key R l2
  /\ (forall x y, In x l1 -> In y l2 -> R (key x) (key y)).
Proof.
  induction l1 as [|a l1 IH]; simpl.
  - intuition.
  - rewrite IH, Forall_app, !Forall_forall. split.
    + intros [[H1 H2] (H3 & H4 & H5)]. repeat split; auto.
      intros x y [<-|Hx] Hy; auto.
    + intros ([H1 H3] & H4 & H5). repeat split; auto.
Qed.

Lemma ordered_rev (R : Z -> Z -> Prop) (l : list A) :
  ordered key R l -> ordered key (fun a b => R b a) (rev l).
Proof.
  induction l as [|a l IH]; simpl; intros H; [exact I|].
  destruct H as [Ha Hl]. apply ordered_app. repeat split; simpl; auto.
  intros x y Hx [<-|[]]. apply in_rev in Hx.
  rewrite Forall_forall in Ha. auto.
Qed.

Lemma ordered_adjacent (R : Z -> Z -> Prop) (l1 l2 : list A) (a b : A) :
  ordered key R (l1 ++ a :: b :: l2) -> R (key a) (key b).
Proof.
  intros H. apply ordered_app in H. destruct H as (_ & H & _).
  simpl in H. destruct H as [H _]. inversion H; assumption.
Qed.

Lemma ordered_after (R : Z -> Z -> Prop) (l1 l2 : list A) (a : A) :
  ordered key R (l1 ++ a :: l2) -> Forall (fun y => R (key a) (key y)) l2.
Proof.
  intros H. apply ordered_app in H. destruct H as (_ & H & _).
  simpl in H. tauto.
Qed.

(** *** What [list.sort] with [reverse=True] gives *)

Lemma list_sort_reverse_perm (l : list A) : Permutation l (list_sort key true l).
Proof.
  unfold list_sort.
  rewrite <- Permutation_rev. fold lt. rewrite stable_sort_perm.
  apply Permutation_rev.
Qed.

Lemma list_sort_reverse_ordered (l : list A) :
  ordered key Z.ge (list_sort key true l).
Proof.
  unfold list_sort. fold lt.
  generalize (ordered_rev Z.le _ (stable_sort_ordered (rev l))).
  generalize (rev (stable_sort lt (rev l))). intros l'.
  induction l' as [|x l' IH]; simpl; [auto|].
  intros [H1 H2]. split; [|auto].
  eapply Forall_impl; [|exact H1]. simpl. intros; lia.
Qed.

Lemma list_sort_reverse_stable (v : Z) (l : list A) :
  with_key key v (list_sort key true l) = with_key key v l.
Proof.
  unfold list_sort. fold lt. unfold with_key.
  rewrite filter_rev.
  change (filter (fun x => key x =? v) (stable_sort lt (rev l)))
    with (with_key key v (stable_sort lt (rev l))).
  rewrite stable_sort_with_key. unfold with_key.
  rewrite filter_rev, rev_involutive. reflexivity.
Qed.

(** Two lists in decreasing order with the same elements for every key,
    in the same order, are the same list: a stable sort has one
    result. *)
Lemma ordered_stable_unique (l1 : list A) :
  forall l2 : list A,
    ordered key Z.ge l1 -> ordered key Z.ge l2 ->
    (forall v, with_key key v l1 = with_key key v l2) ->
    l1 = l2.
Proof.
  unfold with_key.
  induction l1 as [|x l1 IH]; intros l2 O1 O2 E.
  - destruct l2 as [|y l2]; [reflexivity|].
    specialize (E (key y)). simpl in E. rewrite Z.eqb_refl in E. discriminate.
  - destruct l2 as [|y l2].
    + specialize (E (key x)). simpl in E. rewrite Z.eqb_refl in E. discriminate.
    + simpl in O1, O2. destruct O1 as [F1 O1]. destruct O2 as [F2 O2].
      rewrite Forall_forall in F1, F2.
      assert (Kxy : key x >= key y).
      { pose proof (E (key y)) as Ey. simpl in Ey. rewrite Z.eqb_refl in Ey.
        assert (In y (if key x =? key y then x :: filter (fun z => key z =? key y) l1
                      else filter (fun z => key z =? key y) l1)) as Hin
          by (rewrite Ey; left; reflexivity).
        destruct (Z.eqb_spec (key x) (key y)) as [e|ne]; [lia|].
        apply filter_In in Hin. destruct Hin as [Hin _]. apply F1, Hin. }
      assert (Kyx : key y >= key x).
      { pose proof (E (key x)) as Ex. simpl in Ex. rewrite Z.eqb_refl in Ex.
        assert (In x (if key y =? key x then y :: filter (fun z => key z =? key x) l2
                      else filter (fun z => key z =? key x) l2)) as Hin
          by (rewrite <- Ex; left; reflexivity).
        destruct (Z.eqb_spec (key y) (key x)) as [e|ne]; [lia|].
        apply filter_In in Hin. destruct Hin as [Hin _]. apply F2, Hin. }
      assert (x = y).
      { pose proof (E (key x)) as Ex. simpl in Ex. rewrite Z.eqb_refl in Ex.
        replace (key y =? key x) with true in Ex by (symmetry; apply Z.eqb_eq; lia).
        congruence. }
      subst y. f_equal. apply IH; auto.
      intros v. specialize (E v). simpl in E.
      destruct (key x =? v); congruence.
Qed.
End SortByKey.

(** ** The characters of the printed and written texts *)

Lemma code_chr (n : Z) : 0 <= n < 256 -> code (chr n) = n.
Proof.
  intros H. unfold code, chr.
  rewrite N_ascii_embedding by lia. lia.
Qed.

Lemma digit_chr_cases (P : ascii -> Prop) :
  P "0"%char -> P "1"%char -> P "2"%char -> P "3"%char -> P "4"%char ->
  P "5"%char -> P "6"%char -> P "7"%char -> P "8"%char -> P "9"%char ->
  forall d, 0 <= d < 10 -> P (digit_chr d).
Proof.
  intros P0 P1 P2 P3 P4 P5 P6 P7 P8 P9 d H.
  assert (d = 0 \/ d = 1 \/ d = 2 \/ d = 3 \/ d = 4 \/
          d = 5 \/ d = 6 \/ d = 7 \/ d = 8 \/ d = 9) as C by lia.
  repeat (destruct C as [->|C]; [assumption|]). subst d. assumption.
Qed.

Lemma nat_digits_Forall (P : ascii -> Prop) :
  (forall d, 0 <= d < 10 -> P (digit_chr d)) ->
  forall (fuel : nat) (n : Z) (acc : str),
    0 <= n -> Forall P acc -> Forall P (nat_digits fuel n acc).
Proof.
  intros HP. induction fuel as [|f IH]; intros n acc Hn Hacc; simpl; [assumption|].
  destruct (Z.ltb_spec n 10).
  - constructor; [apply HP; lia|assumption].
  - apply IH.
    + apply Z.div_pos; lia.
    + constructor; [|assumption]. apply HP. apply Z.mod_pos_bound. lia.
Qed.

Lemma str_int_Forall (P : ascii -> Prop) (z : Z) :
  P "-"%char -> (forall d, 0 <= d < 10 -> P (digit_chr d)) -> Forall P (str_int z).
Proof.
  intros Hm HP. unfold str_int. destruct (Z.ltb_spec z 0).
  - constructor; [assumption|]. apply nat_digits_Forall; auto. lia.
  - apply nat_digits_Forall; auto.
Qed.

Lemma join_Forall (P : ascii -> Prop) (sep : str) (parts : list str) :
  Forall P sep -> Forall (Forall P) parts -> Forall P (join sep parts).
Proof.
  intros Hs. induction parts as [|p ps IH]; intros H; simpl; [constructor|].
  inversion H as [|? ? Hp Hps]; subst.
  destruct ps as [|q ps]; [assumption|].
  rewrite !Forall_app. auto.
Qed.

Lemma flat_map_Forall (P : ascii -> Prop) (f : ascii -> str) (s : str) :
  (forall c, Forall P (f c)) -> Forall P (flat_map f s).
Proof.
  intros H. induction s as [|c s IH]; simpl; [constructor|].
  rewrite Forall_app. auto.
Qed.

Ltac each_char c :=
  destruct c as [[|] [|] [|] [|] [|] [|] [|] [|]]; vm_compute; reflexivity.

Lemma repr_char_not_LF (c : ascii) :
  forallb not_LF (repr_char chr_apos c) = true
  /\ forallb not_LF (repr_char chr_quote c) = true.
Proof. split; each_char c. Qed.

Lemma repr_str_not_LF (s : str) : Forall (fun c => not_LF c = true) (repr_str s).
Proof.
  unfold repr_str, repr_quote.
  destruct (contains chr_apos s && negb (contains chr_quote s));
    (constructor; [reflexivity|]); rewrite Forall_app;
    (split; [|repeat constructor]);
    apply flat_map_Forall; intros c.
  all: apply Forall_forall; intros x Hx;
    pose proof (repr_char_not_LF c) as [H1 H2];
    rewrite forallb_forall in H1, H2; auto.
Qed.

Lemma str_int_not_LF (z : Z) : Forall (fun c => not_LF c = true) (str_int z).
Proof.
  apply str_int_Forall; [reflexivity|].
  apply (digit_chr_cases (fun c => not_LF c = true)); reflexivity.
Qed.

Lemma repr_item_not_LF (kv : str * value) :
  Forall (fun c => not_LF c = true) (repr_item kv).
Proof.
  destruct kv as [k v]. unfold repr_item. cbn [fst snd].
  rewrite !Forall_app. repeat split.
  - apply repr_str_not_LF.
  - repeat constructor.
  - destruct v; simpl; [apply str_int_not_LF|apply repr_str_not_LF].
Qed.

Lemma str_dict_not_LF (kvs : list (str * value)) :
  Forall (fun c => not_LF c = true) (str_dict kvs).
Proof.
  unfold str_dict. rewrite !Forall_app. repeat split.
  - repeat constructor.
  - apply join_Forall; [repeat constructor|].
    apply Forall_forall. intros x Hx. apply in_map_iff in Hx.
    destruct Hx as (kv & <- & _). apply repr_item_not_LF.
  - repeat constructor.
Qed.

Lemma not_LF_not_In (s : str) :
  Forall (fun c => not_LF c = true) s -> ~ In chr_LF s.
Proof.
  intros H Hin. rewrite Forall_forall in H. apply H in Hin. discriminate.
Qed.

(** ** The lines, one by one *)



(** C6. A line with fewer than 8 fields is skipped silently: the loop body
    returns without an exception, [out] is unchanged, nothing is printed
    and [int] is not called, whatever the fields are. *)
Theorem short_line_skipped (line : str) (out : list SignalRecord) (w : world) :
  (List.length (fields line) < 8)%nat ->
  loop_body line out w = (Ok out, w)
  /\ stdout (snd (loop_body line out w)) = stdout w
  /\ int_calls (snd (loop_body line out w)) = int_calls w.
Proof.
  intros H. rewrite (loop_body_short line out w) by lia. auto.
Qed.


(** C5. The loop body raises [ValueError] exactly on the lines with at
    least 8 fields whose field 1 or field 2 is no decimal literal.
    Nothing catches the exception: [main] ends with it exactly when
    [db.csv] has such a line, and then [frequencies.json] is not
    written. *)
Theorem malformed_field_raises :
  (forall (line : str) (out : list SignalRecord) (w : world),
      fst (loop_body line out w) = Raise ValueError
      <-> ((8 <= List.length (fields line))%nat
           /\ (py_int (field 1 line) = None \/ py_int (field 2 line) = None)))
  /\ (forall (w : world) (content : str),
         db_csv w = Some content ->
         (fst (main w) = Raise ValueError
          <-> exists line,
                In line (file_lines content)
                /\ (8 <= List.length (fields line))%nat
                /\ (py_int (field 1 line) = None \/ py_int (field 2 line) = None))
         /\ (fst (main w) = Raise ValueError ->
             frequencies_json (snd (main w)) = frequencies_json w)
         /\ (fst (main w) = Raise ValueError \/ fst (main w) = Ok tt)).
Proof.
  split.
  - intros line out w. rewrite <- malformed_iff.
    destruct (malformed line) eqn:M.
    + destruct (loop_body_raise line out w M) as (w' & E & _).
      rewrite E. simpl. tauto.
    + destruct (loop_body_ok line out w M) as (w' & E & _).
      rewrite E. simpl. split; discriminate.
  - intros w content D.
    destruct (existsb malformed (file_lines content)) eqn:X.
    + destruct (main_raise w content D X) as (w' & E & F).
      rewrite E. simpl. repeat split; auto.
      intros _. apply existsb_exists in X. destruct X as (line & Hin & M).
      apply malformed_iff in M. exists line. tauto.
    + destruct (main_ok w content D X) as (w' & E & F & S).
      rewrite E. simpl. repeat split; auto; try discriminate.
      intros (line & Hin & M). apply malformed_iff in M.
      assert (existsb malformed (file_lines content) = true) as X'
          by (apply existsb_exists; exists line; auto).
      congruence.
Qed.

(** ** The sorted output *)

Lemma retained_qualifying (line : str) (a b : Z) :
  (8 <= List.length (fields line))%nat ->
  py_int (field 1 line) = Some a -> py_int (field 2 line) = Some b ->
  ~ (a = 0 /\ b = 0) ->
  retained line = [record_of line a b].
Proof.
  intros L Ha Hb N. unfold retained. rewrite Ha, Hb.
  destruct (Nat.ltb_spec 7 (List.length (fields line))); [|lia].
  destruct (Z.eqb_spec a 0), (Z.eqb_spec b 0); simpl; try reflexivity.
  exfalso. auto.
Qed.

Lemma retained_dropped (line : str) : dropped line -> retained line = [] /\ malformed line = false.
Proof.
  unfold dropped, retained, malformed, parseable. intros [L|[H1 H2]].
  - destruct (Nat.ltb_spec 7 (List.length (fields line))); [lia|auto].
  - rewrite H1, H2. simpl. destruct (7 <? List.length (fields line))%nat; auto.
Qed.

(** C2. The list written to [frequencies.json] is the stable sort of the
    kept dictionaries by decreasing [freqStop - freqStart]: it has the
    same dictionaries, every adjacent pair [(a, b)] of it has
    [a.freqStop - a.freqStart >= b.freqStop - b.freqStart], the
    dictionaries of one bandwidth are in the order of their lines, and it
    is the only list in decreasing order that keeps those orders. *)
Theorem output_sorted_stable (content : str) :
  let kept := flat_map retained (file_lines content) in
  let out := output_array content in
  (forall w, db_csv w = Some content ->
             existsb malformed (file_lines content) = false ->
             fst (main w) = Ok tt
             /\ frequencies_json (snd (main w)) = Some (json_dumps true (map items out)))
  /\ Permutation kept out
  /\ (forall l1 a b l2,
         out = l1 ++ a :: b :: l2 ->
         freqStop a - freqStart a >= freqStop b - freqStart b)
  /\ (forall v, with_key bandwidth v out = with_key bandwidth v kept)
  /\ (forall out',
         ordered bandwidth Z.ge out' ->
         (forall v, with_key bandwidth v out' = with_key bandwidth v kept) ->
         out' = out).
Proof.
  intros kept out. split; [|split; [|split; [|split]]].
  - intros w D X. destruct (main_ok w content D X) as (w' & E & F & _).
    rewrite E. simpl. auto.
  - apply list_sort_reverse_perm.
  - intros l1 a b l2 E.
    assert (O : ordered bandwidth Z.ge out) by apply list_sort_reverse_ordered.
    rewrite E in O.
    exact (ordered_adjacent bandwidth Z.ge l1 l2 a b O).
  - intros v. apply list_sort_reverse_stable.
  - intros out' O S. apply (ordered_stable_unique bandwidth); auto.
    + apply list_sort_reverse_ordered.
    + intros v. rewrite S. symmetry. apply list_sort_reverse_stable.
Qed.

(** A dictionary with inverted bounds, in the sorted list. *)
Lemma inverted_record_last (line : str) (a b : Z) :
  (8 <= List.length (fields line))%nat ->
  py_int (field 1 line) = Some a -> py_int (field 2 line) = Some b ->
  b < a ->
  (forall out w, fst (loop_body line out w) = Ok (out ++ [record_of line a b]))
  /\ bandwidth (record_of line a b) < 0
  /\ (forall content,
         In line (file_lines content) ->
         In (record_of line a b) (output_array content)
         /\ (forall l1 l2,
                output_array content = l1 ++ record_of line a b :: l2 ->
                Forall (fun x => bandwidth x < 0) l2)
         /\ (forall l1 x l2,
                output_array content = l1 ++ x :: l2 ->
                0 <= bandwidth x -> ~ In (record_of line a b) l1)).
Proof.
  intros L Ha Hb Lt.
  assert (N : ~ (a = 0 /\ b = 0)) by lia.
  assert (B : bandwidth (record_of line a b) < 0) by (unfold bandwidth; simpl; lia).
  split; [|split; [exact B|]].
  - intros out w. rewrite (loop_body_long line out w) by lia.
    rewrite Ha, Hb.
    destruct (Z.eqb_spec a 0), (Z.eqb_spec b 0); simpl; try reflexivity. lia.
  - intros content Hin.
    assert (O : ordered bandwidth Z.ge (output_array content))
      by apply list_sort_reverse_ordered.
    split; [|split].
    + eapply Permutation_in; [apply list_sort_reverse_perm|].
      apply in_flat_map. exists line. split; [exact Hin|].
      rewrite (retained_qualifying line a b L Ha Hb N). left. reflexivity.
    + intros l1 l2 E. rewrite E in O.
      apply ordered_after in O.
      eapply Forall_impl; [|exact O]. simpl. intros x Hx. lia.
    + intros l1 x l2 E Hx Hin1. rewrite E in O.
      apply in_split in Hin1. destruct Hin1 as (l0 & l0' & ->).
      rewrite <- app_assoc in O. simpl in O.
      apply ordered_after in O. rewrite Forall_app in O. destruct O as [_ O].
      inversion O; subst. lia.
Qed.

(** C10. No order between the two frequencies is asked for: a line with
    at least 8 fields whose parsed [freqStop] is below its parsed
    [freqStart] is kept by the loop body and its dictionary has a negative
    bandwidth; and whenever [main] ends normally on a [db.csv] with that
    line, the list it has written to [frequencies.json] has the
    dictionary, only dictionaries of negative bandwidth follow it there,
    and those of nonnegative bandwidth all come before it. *)
Theorem inverted_bounds_kept_last (line : str) (a b : Z) :
  (8 <= List.length (fields line))%nat ->
  py_int (field 1 line) = Some a -> py_int (field 2 line) = Some b ->
  b < a ->
  (forall out w, fst (loop_body line out w) = Ok (out ++ [record_of line a b]))
  /\ bandwidth (record_of line a b) < 0
  /\ (forall w content,
         db_csv w = Some content ->
         In line (file_lines content) ->
         fst (main w) = Ok tt ->
         exists entries,
           frequencies_json (snd (main w)) = Some (json_dumps true (map items entries))
           /\ In (record_of line a b) entries
           /\ (forall l1 l2,
                  entries = l1 ++ record_of line a b :: l2 ->
                  Forall (fun x => bandwidth x < 0) l2)
           /\ (forall l1 x l2,
                  entries = l1 ++ x :: l2 ->
                  0 <= bandwidth x -> ~ In (record_of line a b) l1)).
Proof.
  intros L Ha Hb Lt.
  destruct (inverted_record_last line a b L Ha Hb Lt) as (A & B & C).
  split; [exact A|]. split; [exact B|].
  intros w content D Hin H.
  destruct (main_normal_end w content D H) as [_ F].
  exists (output_array content). split; [exact F|]. exact (C content Hin).
Qed.

(** C9. When every line of [db.csv] fails the conditions for being kept
    (and for the empty file, which has no line), there is no dictionary
    to write, and [main] writes the text [[]] to [frequencies.json]. *)
Theorem nothing_kept_writes_empty_array :
  (forall (w : world) (content : str),
      db_csv w = Some content ->
      Forall dropped (file_lines content) ->
      output_array content = []
      /\ fst (main w) = Ok tt
      /\ frequencies_json (snd (main w)) = Some (lit "[]"))
  /\ output_array [] = []
  /\ main (initial []) = (Ok tt, written (lit "[]") (initial [])).
Proof.
  split; [|split; reflexivity].
  intros w content D H.
  assert (K : flat_map retained (file_lines content) = []
              /\ existsb malformed (file_lines content) = false).
  { induction H as [|l ls Hl Hls IH]; simpl; [auto|].
    destruct (retained_dropped l Hl) as [-> ->]. simpl. exact IH. }
  destruct K as [K X].
  assert (O : output_array content = []) by (unfold output_array; rewrite K; reflexivity).
  destruct (main_ok w content D X) as (w' & E & F & _).
  rewrite E, O in *. simpl. auto.
Qed.

(** ** Reading back what [json.dump] wrote *)

(** *** Strings *)

Lemma parse_chars_escape (c : ascii) (tail : str) :
  parse_chars (json_escape c ++ tail) = cons_fst c (parse_chars tail).
Proof.
  destruct c as [[|] [|] [|] [|] [|] [|] [|] [|]]; reflexivity.
Qed.

Lemma parse_chars_json_str (s rest : str) :
  parse_chars (flat_map json_escape s ++ chr_quote :: rest) = Some (s, rest).
Proof.
  induction s as [|c s IH]; simpl; [reflexivity|].
  rewrite <- app_assoc, parse_chars_escape, IH. reflexivity.
Qed.

(** *** Numbers *)

Lemma digit_of_digit_chr (d : Z) : 0 <= d < 10 -> digit_of (digit_chr d) = Some d.
Proof.
  intros H.
  assert (d = 0 \/ d = 1 \/ d = 2 \/ d = 3 \/ d = 4 \/
          d = 5 \/ d = 6 \/ d = 7 \/ d = 8 \/ d = 9) as C by lia.
  repeat (destruct C as [->|C]; [reflexivity|]). subst d. reflexivity.
Qed.

Lemma nat_digits_app (fuel : nat) :
  forall (n : Z) (acc t : str),
    nat_digits fuel n acc ++ t = nat_digits fuel n (acc ++ t).
Proof.
  induction fuel as [|f IH]; intros n acc t; simpl; [reflexivity|].
  destruct (n <? 10); [reflexivity|]. rewrite IH. reflexivity.
Qed.

(** The digits of a positive number start with a digit that is not zero,
    and reading them multiplies what was read before by a power of ten and
    adds the number. *)
Lemma nat_digits_head (fuel : nat) :
  forall (n : Z) (t : str),
    0 < n < 2 ^ Z.of_nat fuel ->
    exists d s',
      1 <= d < 10
      /\ nat_digits fuel n t = digit_chr d :: s'
      /\ exists k, forall a, take_digits (a * 10 + d) s' = take_digits (a * k + n) t.
Proof.
  induction fuel as [|f IH]; intros n t H.
  - simpl in H. lia.
  - simpl nat_digits. destruct (Z.ltb_spec n 10) as [L|L].
    + exists n, t. split; [lia|]. split; [reflexivity|]. exists 10. reflexivity.
    + assert (Hdiv : 0 < n / 10 < 2 ^ Z.of_nat f).
      { split.
        - apply Z.div_str_pos. lia.
        - rewrite Nat2Z.inj_succ, Z.pow_succ_r in H by lia.
          apply Z.div_lt_upper_bound; lia. }
      destruct (IH (n / 10) (digit_chr (n mod 10) :: t) Hdiv)
        as (d & s' & Hd & E & k & Hk).
      exists d, s'. split; [exact Hd|]. split; [exact E|].
      exists (k * 10). intros a. rewrite Hk. simpl.
      rewrite digit_of_digit_chr by (apply Z.mod_pos_bound; lia).
      f_equal. pose proof (Z.div_mod n 10). lia.
Qed.

Lemma take_digits_closed (n : Z) (t : str) :
  closes_number t = true -> take_digits n t = (n, t).
Proof.
  destruct t as [|c t]; simpl; [reflexivity|].
  destruct (digit_of c); [discriminate|reflexivity].
Qed.

Lemma digits_fuel_enough (n : Z) : 0 < n -> 0 < n < 2 ^ Z.of_nat (digits_fuel n).
Proof.
  intros H. split; [exact H|]. unfold digits_fuel.
  rewrite Nat2Z.inj_succ, Z2Nat.id by apply Z.log2_nonneg.
  apply Z.log2_spec. exact H.
Qed.

Lemma parse_nat_digits (n : Z) (t : str) :
  0 <= n -> closes_number t = true ->
  parse_nat (nat_digits (digits_fuel n) n t) = Some (n, t).
Proof.
  intros Hn Ht. destruct (Z.eq_dec n 0) as [->|Hz].
  - reflexivity.
  - destruct (nat_digits_head (digits_fuel n) n t) as (d & s' & Hd & E & k & Hk).
    { apply digits_fuel_enough. lia. }
    rewrite E. unfold parse_nat. rewrite digit_of_digit_chr by lia.
    destruct (Z.eqb_spec d 0); [lia|].
    specialize (Hk 0). simpl in Hk. rewrite Hk.
    rewrite take_digits_closed by exact Ht. reflexivity.
Qed.

Lemma parse_nat_not_minus (c : ascii) (s : str) :
  Ascii.eqb c "-"%char = true -> parse_nat (c :: s) = None.
Proof.
  intros H. apply Ascii.eqb_eq in H. subst c. reflexivity.
Qed.

Lemma parse_number_str_int (z : Z) (t : str) :
  closes_number t = true ->
  parse_number (str_int z ++ t) = Some (JInt z, t).
Proof.
  intros Ht.
  assert (F : float_follows t = false).
  { destruct t as [|c t]; [reflexivity|]. simpl in Ht.
    destruct (digit_of c); [discriminate|]. apply negb_true_iff in Ht. exact Ht. }
  unfold str_int. destruct (Z.ltb_spec z 0) as [L|L].
  - rewrite <- app_comm_cons, nat_digits_app, app_nil_l.
    unfold parse_number. cbn [Ascii.eqb Bool.eqb].
    rewrite parse_nat_digits by (auto; lia).
    rewrite F. f_equal. f_equal. f_equal. lia.
  - rewrite nat_digits_app, app_nil_l.
    pose proof (parse_nat_digits z t L Ht) as P.
    unfold parse_number.
    destruct (nat_digits (digits_fuel z) z t) as [|c s]; [discriminate|].
    destruct (Ascii.eqb c "-"%char) eqn:M.
    + rewrite parse_nat_not_minus in P by exact M. discriminate.
    + rewrite P, F. reflexivity.
Qed.

(** *** Values *)

Lemma number_head (c : ascii) (s : str) (x : json * str) :
  parse_number (c :: s) = Some x ->
  json_ws c = false
  /\ Ascii.eqb c chr_quote = false
  /\ Ascii.eqb c "["%char = false
  /\ Ascii.eqb c "{"%char = false.
Proof.
  intros H.
  assert (forall d, parse_number (d :: s) = None -> Ascii.eqb c d = false) as K.
  { intros d Hd. destruct (Ascii.eqb_spec c d) as [->|]; [congruence|reflexivity]. }
  unfold json_ws.
  rewrite (K " "%char eq_refl), (K chr_TAB eq_refl), (K chr_LF eq_refl),
    (K chr_CR eq_refl), (K chr_quote eq_refl), (K "["%char eq_refl),
    (K "{"%char eq_refl).
  auto.
Qed.

Lemma parse_value_number (f : nat) (s : str) (x : json * str) :
  parse_number s = Some x -> parse_value (S f) s = Some x.
Proof.
  intros H. destruct s as [|c s]; [discriminate|].
  destruct (number_head c s x H) as (W & Q & B1 & B2).
  cbn [parse_value skip_ws]. rewrite W, Q, B1, B2. exact H.
Qed.

Lemma parse_value_json_str (f : nat) (s rest : str) :
  parse_value (S f) (json_str s ++ rest) = Some (JStr s, rest).
Proof.
  unfold json_str. rewrite <- app_comm_cons, <- app_assoc.
  cbn [parse_value skip_ws]. 
  change (json_ws chr_quote) with false. cbv iota.
  change (Ascii.eqb chr_quote chr_quote) with true. cbv iota.
  change ([chr_quote] ++ rest) with (chr_quote :: rest).
  rewrite parse_chars_json_str. reflexivity.
Qed.

Lemma parse_value_json_value (f : nat) (v : value) (rest : str) :
  closes_number rest = true ->
  parse_value (S f) (json_value v ++ rest) = Some (json_of_value v, rest).
Proof.
  intros H. destruct v as [z|s]; simpl json_value; simpl json_of_value.
  - apply parse_value_number, parse_number_str_int, H.
  - apply parse_value_json_str.
Qed.

Lemma parse_value_space (f : nat) (s : str) :
  parse_value f (" "%char :: s) = parse_value f s.
Proof. destruct f; reflexivity. Qed.

Lemma parse_members_space (f : nat) (s : str) :
  parse_members f (" "%char :: s) = parse_members f s.
Proof. destruct f; reflexivity. Qed.

Lemma parse_elements_space (f : nat) (s : str) :
  parse_elements f (" "%char :: s) = parse_elements f s.
Proof. destruct f as [|f]; [reflexivity|]. cbn [parse_elements]. rewrite parse_value_space. reflexivity. Qed.

(** *** Dictionaries and lists *)

Lemma parse_members_step (f : nat) (kv : str * value) (tail : str) :
  closes_number tail = true ->
  parse_members (S (S f)) (json_item kv ++ tail) =
  match skip_ws tail with
  | e :: r =>
      if Ascii.eqb e ","%char
      then cons_fst (fst kv, json_of_value (snd kv)) (parse_members (S f) r)
      else if Ascii.eqb e "}"%char then Some ([(fst kv, json_of_value (snd kv))], r)
      else None
  | [] => None
  end.
Proof.
  intros H. destruct kv as [k v]. unfold json_item, json_str. cbn [fst snd].
  rewrite <- !app_assoc, <- app_comm_cons, <- !app_assoc.
  remember (S f) as g eqn:G.
  cbn [parse_members skip_ws app lit list_ascii_of_string].
  change (json_ws chr_quote) with false. cbv iota.
  change (Ascii.eqb chr_quote chr_quote) with true. cbv iota.
  rewrite parse_chars_json_str.
  cbn [skip_ws]. change (json_ws ":") with false. cbv iota.
  change (Ascii.eqb ":" ":") with true. cbv iota.
  subst g. rewrite parse_value_space, parse_value_json_value by exact H.
  reflexivity.
Qed.

(** The entries of a dictionary, read up to the closing brace. *)
Lemma parse_members_items (kvs : list (str * value)) :
  forall (f : nat) (rest : str),
    kvs <> [] -> (List.length kvs < f)%nat ->
    parse_members f (join (lit ", ") (map json_item kvs) ++ "}"%char :: rest)
    = Some (map (fun kv => (fst kv, json_of_value (snd kv))) kvs, rest).
Proof.
  induction kvs as [|kv kvs IH]; intros f rest N L; [congruence|].
  destruct f as [|[|f]]; simpl in L; try lia.
  destruct kvs as [|kv' kvs].
  - cbn [join map]. rewrite parse_members_step by reflexivity. reflexivity.
  - change (join (lit ", ") (map json_item (kv :: kv' :: kvs)))
      with (json_item kv ++ lit ", " ++ join (lit ", ") (map json_item (kv' :: kvs))).
    rewrite <- !app_assoc. rewrite parse_members_step by reflexivity.
    cbn [lit list_ascii_of_string app skip_ws].
    change (json_ws ",") with false. cbv iota.
    change (Ascii.eqb "," ",") with true. cbv iota.
    rewrite parse_members_space, IH; [reflexivity|discriminate|simpl in *; lia].
Qed.

Lemma json_item_head (kv : str * value) (tail : str) :
  exists r, json_item kv ++ tail = chr_quote :: r.
Proof. eexists. unfold json_item, json_str. rewrite <- !app_comm_cons. reflexivity. Qed.

Lemma parse_value_members (f : nat) (kvs : list (str * value)) (rest : str) :
  (List.length kvs < f)%nat ->
  parse_value (S f) (lit "{" ++ join (lit ", ") (map json_item kvs) ++ lit "}" ++ rest)
  = Some (json_of_dict kvs, rest).
Proof.
  intros L. destruct kvs as [|kv kvs]; [reflexivity|].
  pose proof (parse_members_items (kv :: kvs) f rest) as P.
  assert (exists r, join (lit ", ") (map json_item (kv :: kvs)) ++ lit "}" ++ rest
                    = chr_quote :: r) as [r E].
  { cbn [map join]. destruct (map json_item kvs).
    - apply json_item_head.
    - rewrite <- app_assoc. apply json_item_head. }
  change (lit "}" ++ rest) with ("}"%char :: rest) in *.
  change (lit "{" ++ join (lit ", ") (map json_item (kv :: kvs)) ++ "}"%char :: rest)
    with ("{"%char :: (join (lit ", ") (map json_item (kv :: kvs)) ++ "}"%char :: rest)).
  cbn [parse_value skip_ws].
  change (json_ws "{") with false. cbv iota.
  change (Ascii.eqb "{" chr_quote) with false.
  change (Ascii.eqb "{" "[") with false.
  change (Ascii.eqb "{" "{") with true. cbv iota.
  rewrite P by (auto; discriminate).
  rewrite E. cbn [skip_ws].
  change (json_ws chr_quote) with false. cbv iota.
  change (Ascii.eqb chr_quote "}") with false. cbv iota.
  reflexivity.
Qed.

(** The order [json.dump] writes the entries in. *)
Lemma parse_value_json_dict (f : nat) (sort_keys : bool) (kvs : list (str * value)) (rest : str) :
  (List.length kvs < f)%nat ->
  parse_value (S f) (json_dict sort_keys kvs ++ rest)
  = Some (json_of_dict (if sort_keys then stable_sort item_ltb kvs else kvs), rest).
Proof.
  intros L. unfold json_dict. rewrite <- !app_assoc.
  apply parse_value_members.
  destruct sort_keys; [|exact L].
  assert (forall x l, List.length (insert item_ltb x l) = S (List.length l)) as I.
  { intros x l. induction l as [|y l IH]; simpl; [reflexivity|].
    destruct (item_ltb y x); simpl; [rewrite IH|]; reflexivity. }
  assert (List.length (stable_sort item_ltb kvs) = List.length kvs) as E.
  { induction kvs as [|x l IH]; simpl; [reflexivity|].
    rewrite I. simpl in L. rewrite IH by lia. reflexivity. }
  lia.
Qed.

Lemma json_dict_head (sort_keys : bool) (kvs : list (str * value)) (tail : str) :
  exists r, json_dict sort_keys kvs ++ tail = "{"%char :: r.
Proof. eexists. unfold json_dict. rewrite <- !app_assoc. reflexivity. Qed.

Lemma parse_elements_step (f : nat) (sort_keys : bool) (kvs : list (str * value)) (tail : str) :
  (List.length kvs < f)%nat ->
  parse_elements (S (S f)) (json_dict sort_keys kvs ++ tail) =
  match skip_ws tail with
  | c :: r =>
      if Ascii.eqb c ","%char
      then cons_fst (json_of_dict (written_order sort_keys kvs)) (parse_elements (S f) r)
      else if Ascii.eqb c "]"%char then Some ([json_of_dict (written_order sort_keys kvs)], r)
      else None
  | [] => None
  end.
Proof.
  intros L. remember (S f) as g eqn:G. cbn [parse_elements]. subst g.
  rewrite parse_value_json_dict by exact L. reflexivity.
Qed.

(** The elements of a list, read up to the closing bracket. *)
Lemma parse_elements_dicts (sort_keys : bool) (bound : nat) (l : list (list (str * value))) :
  forall (f : nat) (rest : str),
    l <> [] ->
    Forall (fun kvs => (List.length kvs <= bound)%nat) l ->
    (bound + 2 + List.length l <= f)%nat ->
    parse_elements f (join (lit ", ") (map (json_dict sort_keys) l) ++ "]"%char :: rest)
    = Some (map (fun kvs => json_of_dict (written_order sort_keys kvs)) l, rest).
Proof.
  induction l as [|d l IH]; intros f rest N B L; [congruence|].
  inversion B as [|? ? Bd Bl]; subst.
  destruct f as [|[|f]]; simpl in L; try lia.
  destruct l as [|d' l].
  - cbn [join map]. rewrite parse_elements_step by lia. reflexivity.
  - change (join (lit ", ") (map (json_dict sort_keys) (d :: d' :: l)))
      with (json_dict sort_keys d ++ lit ", "
            ++ join (lit ", ") (map (json_dict sort_keys) (d' :: l))).
    rewrite <- !app_assoc. rewrite parse_elements_step by lia.
    cbn [lit list_ascii_of_string app skip_ws].
    change (json_ws ",") with false. cbv iota.
    change (Ascii.eqb "," ",") with true. cbv iota.
    rewrite parse_elements_space, IH; [reflexivity|discriminate|exact Bl|simpl in *; lia].
Qed.

Lemma parse_value_json_dumps (sort_keys : bool) (bound f : nat)
      (l : list (list (str * value))) (rest : str) :
  Forall (fun kvs => (List.length kvs <= bound)%nat) l ->
  (bound + 2 + List.length l <= f)%nat ->
  parse_value (S f) (json_dumps sort_keys l ++ rest)
  = Some (JArr (map (fun kvs => json_of_dict (written_order sort_keys kvs)) l), rest).
Proof.
  intros B L. unfold json_dumps. rewrite <- !app_assoc.
  destruct l as [|d l]; [reflexivity|].
  pose proof (parse_elements_dicts sort_keys bound (d :: l) f rest) as P.
  assert (exists r, join (lit ", ") (map (json_dict sort_keys) (d :: l)) ++ lit "]" ++ rest
                    = "{"%char :: r) as [r E].
  { cbn [map join]. destruct (map (json_dict sort_keys) l).
    - apply json_dict_head.
    - rewrite <- app_assoc. apply json_dict_head. }
  change (lit "]" ++ rest) with ("]"%char :: rest) in *.
  change (lit "[" ++ join (lit ", ") (map (json_dict sort_keys) (d :: l)) ++ "]"%char :: rest)
    with ("["%char :: (join (lit ", ") (map (json_dict sort_keys) (d :: l)) ++ "]"%char :: rest)).
  cbn [parse_value skip_ws].
  change (json_ws "[") with false. cbv iota.
  change (Ascii.eqb "[" chr_quote) with false.
  change (Ascii.eqb "[" "[") with true. cbv iota.
  rewrite P by (auto; discriminate).
  rewrite E. cbn [skip_ws].
  change (json_ws "{") with false. cbv iota.
  change (Ascii.eqb "{" "]") with false. cbv iota.
  reflexivity.
Qed.

Lemma join_length (sep : str) (m : nat) (parts : list str) :
  Forall (fun p => (m <= List.length p)%nat) parts ->
  (m * List.length parts <= List.length (join sep parts))%nat.
Proof.
  induction 1 as [|p ps Hp Hps IH]; [simpl; lia|].
  cbn [join]. destruct ps as [|q ps].
  - simpl. lia.
  - rewrite !length_app. cbn [List.length] in *. lia.
Qed.

Lemma json_dict_items_length (r : SignalRecord) :
  (5 <= List.length (json_dict true (items r)))%nat.
Proof.
  unfold json_dict.
  change (stable_sort item_ltb (items r))
    with [ (lit "description", VStr (description r));
           (lit "freqStart", VInt (freqStart r));
           (lit "freqStop", VInt (freqStop r));
           (lit "url", VStr (url r)) ].
  rewrite !length_app. cbn [lit list_ascii_of_string List.length]. cbn [map join].
  rewrite !length_app. unfold json_item at 1. rewrite !length_app.
  unfold json_str at 1. cbn [fst List.length]. lia.
Qed.

(** Reading the written text gives the dictionaries back, each one as an
    object with its four keys in lexicographic order. *)
Lemma json_loads_records (out : list SignalRecord) :
  json_loads (json_dumps true (map items out)) = Some (JArr (map json_of_record out)).
Proof.
  destruct out as [|r0 out0]; [reflexivity|].
  remember (r0 :: out0) as out eqn:Eout.
  unfold json_loads.
  rewrite <- (app_nil_r (json_dumps true (map items out))) at 2.
  rewrite (parse_value_json_dumps true 4).
  - rewrite map_map. reflexivity.
  - apply Forall_forall. intros kvs H. apply in_map_iff in H.
    destruct H as (r & <- & _). simpl. lia.
  - rewrite length_map. unfold json_dumps.
    rewrite !length_app. cbn [lit list_ascii_of_string List.length].
    pose proof (join_length (lit ", ") 5 (map (json_dict true) (map items out))) as J.
    rewrite !length_map in J.
    assert (Forall (fun p => (5 <= List.length p)%nat)
                   (map (json_dict true) (map items out))) as F.
    { apply Forall_forall. intros p H. apply in_map_iff in H.
      destruct H as (kvs & <- & H). apply in_map_iff in H.
      destruct H as (r' & <- & _). apply json_dict_items_length. }
    specialize (J F). subst out.
    cbn [lit list_ascii_of_string List.length] in *. lia.
Qed.

(** ** The output file *)

Lemma json_escape_printable (c : ascii) : forallb printable (json_escape c) = true.
Proof. each_char c. Qed.

Lemma json_str_printable (s : str) : Forall (fun c => printable c = true) (json_str s).
Proof.
  unfold json_str. constructor; [reflexivity|]. rewrite Forall_app.
  split; [|repeat constructor].
  apply flat_map_Forall. intros c. apply Forall_forall.
  apply forallb_forall, json_escape_printable.
Qed.

Lemma str_int_printable (z : Z) : Forall (fun c => printable c = true) (str_int z).
Proof.
  apply str_int_Forall; [reflexivity|].
  apply (digit_chr_cases (fun c => printable c = true)); reflexivity.
Qed.

Lemma json_item_printable (kv : str * value) :
  Forall (fun c => printable c = true) (json_item kv).
Proof.
  destruct kv as [k v]. unfold json_item. cbn [fst snd].
  rewrite !Forall_app. repeat split.
  - apply json_str_printable.
  - repeat constructor.
  - destruct v; simpl; [apply str_int_printable|apply json_str_printable].
Qed.

Lemma json_dict_printable (sort_keys : bool) (kvs : list (str * value)) :
  Forall (fun c => printable c = true) (json_dict sort_keys kvs).
Proof.
  unfold json_dict. rewrite !Forall_app. repeat split.
  - repeat constructor.
  - apply join_Forall; [repeat constructor|].
    apply Forall_forall. intros x Hx. apply in_map_iff in Hx.
    destruct Hx as (kv & <- & _). apply json_item_printable.
  - repeat constructor.
Qed.

Lemma json_dumps_printable (sort_keys : bool) (l : list (list (str * value))) :
  Forall (fun c => printable c = true) (json_dumps sort_keys l).
Proof.
  unfold json_dumps. rewrite !Forall_app. repeat split.
  - repeat constructor.
  - apply join_Forall; [repeat constructor|].
    apply Forall_forall. intros x Hx. apply in_map_iff in Hx.
    destruct Hx as (kvs & <- & _). apply json_dict_printable.
  - repeat constructor.
Qed.

(** *** White space between the tokens *)

Lemma scan_end_app (st : scan) (a b : str) :
  scan_end st (a ++ b) = scan_end (scan_end st a) b.
Proof. unfold scan_end. apply fold_left_app. Qed.

Lemma between_strings_app (a b : str) :
  forall st, between_strings st (a ++ b)
             = between_strings st a ++ between_strings (scan_end st a) b.
Proof.
  induction a as [|c a IH]; intros st; [reflexivity|].
  cbn [app between_strings]. unfold scan_end. cbn [fold_left].
  fold (scan_end (scan_step st c) a).
  destruct st; destruct (scan_step _ c); cbn [app]; rewrite IH; reflexivity.
Qed.

Lemma last_cons (a : str) :
  forall c prev : ascii, last (c :: a) prev = last a c.
Proof.
  induction a as [|x a IH]; intros c prev; [reflexivity|].
  change (last (c :: x :: a) prev) with (last (x :: a) prev).
  rewrite (IH x prev), (IH x c). reflexivity.
Qed.

Lemma separator_spaces_app (a b : str) :
  forall prev, separator_spaces prev (a ++ b)
               = separator_spaces prev a && separator_spaces (last a prev) b.
Proof.
  induction a as [|c a IH]; intros prev; [reflexivity|].
  cbn [app separator_spaces]. rewrite IH, andb_assoc, last_cons.
  reflexivity.
Qed.

Lemma tidy_app (a b : str) : tidy a -> tidy b -> tidy (a ++ b).
Proof.
  intros [Ea Sa] [Eb Sb]. split.
  - rewrite scan_end_app, Ea. exact Eb.
  - intros prev. rewrite between_strings_app, Ea, separator_spaces_app, Sa, Sb.
    reflexivity.
Qed.

Lemma tidy_join (sep : str) (parts : list str) :
  tidy sep -> Forall tidy parts -> tidy (join sep parts).
Proof.
  intros Hs. induction 1 as [|p ps Hp Hps IH]; [split; reflexivity|].
  cbn [join]. destruct ps as [|q ps]; [exact Hp|].
  apply tidy_app; [exact Hp|]. apply tidy_app; [exact Hs|exact IH].
Qed.

Lemma json_escape_inside (c : ascii) :
  scan_end Inside (json_escape c) = Inside
  /\ between_strings Inside (json_escape c) = [].
Proof. split; each_char c. Qed.

Lemma json_escapes_inside (s : str) :
  scan_end Inside (flat_map json_escape s) = Inside
  /\ between_strings Inside (flat_map json_escape s) = [].
Proof.
  induction s as [|c s [IH1 IH2]]; [split; reflexivity|].
  destruct (json_escape_inside c) as [E1 E2]. cbn [flat_map].
  rewrite scan_end_app, between_strings_app, E1, E2, IH1, IH2. split; reflexivity.
Qed.

Lemma tidy_json_str (s : str) : tidy (json_str s).
Proof.
  destruct (json_escapes_inside s) as [E1 E2].
  unfold json_str, tidy.
  change (chr_quote :: flat_map json_escape s ++ [chr_quote])
    with ([chr_quote] ++ flat_map json_escape s ++ [chr_quote]).
  rewrite !scan_end_app, !between_strings_app.
  change (scan_end Outside [chr_quote]) with Inside.
  rewrite E1, E2. split; [reflexivity|]. intros prev. reflexivity.
Qed.

Lemma tidy_plain (s : str) :
  Forall (fun c => Ascii.eqb c chr_quote = false /\ json_ws c = false) s -> tidy s.
Proof.
  induction 1 as [|c s [Q W] H IH]; [split; reflexivity|].
  destruct IH as [E S]. split.
  - unfold scan_end in *. cbn [fold_left scan_step]. rewrite Q. exact E.
  - intros prev. cbn [between_strings scan_step]. rewrite Q.
    cbn [separator_spaces]. rewrite W, S. reflexivity.
Qed.

Lemma tidy_str_int (z : Z) : tidy (str_int z).
Proof.
  apply tidy_plain. apply str_int_Forall; [split; reflexivity|].
  apply (digit_chr_cases
           (fun c => Ascii.eqb c chr_quote = false /\ json_ws c = false));
    split; reflexivity.
Qed.

Lemma tidy_literal (s : str) :
  scan_end Outside s = Outside ->
  forallb (fun prev => separator_spaces prev (between_strings Outside s))
          [" "%char; ","%char; ":"%char] = true ->
  tidy s.
Proof.
  intros E H. split; [exact E|]. intros prev.
  cbn [forallb] in H. rewrite !andb_true_iff in H. destruct H as (H1 & H2 & H3 & _).
  generalize dependent (between_strings Outside s). intros t.
  destruct t as [|c t]; [reflexivity|]. cbn [separator_spaces].
  destruct (Ascii.eqb_spec prev ","%char) as [->|N1]; [auto|].
  destruct (Ascii.eqb_spec prev ":"%char) as [->|N2]; [auto|].
  intros H1 _ _. exact H1.
Qed.

Lemma tidy_json_item (kv : str * value) : tidy (json_item kv).
Proof.
  destruct kv as [k v]. unfold json_item. cbn [fst snd].
  apply tidy_app; [apply tidy_json_str|].
  apply tidy_app; [apply tidy_literal; reflexivity|].
  destruct v; [apply tidy_str_int|apply tidy_json_str].
Qed.

Lemma tidy_json_dict (sort_keys : bool) (kvs : list (str * value)) :
  tidy (json_dict sort_keys kvs).
Proof.
  unfold json_dict.
  apply tidy_app; [apply tidy_literal; reflexivity|].
  apply tidy_app; [|apply tidy_literal; reflexivity].
  apply tidy_join; [apply tidy_literal; reflexivity|].
  apply Forall_forall. intros x Hx. apply in_map_iff in Hx.
  destruct Hx as (kv & <- & _). apply tidy_json_item.
Qed.

Lemma tidy_json_dumps (sort_keys : bool) (l : list (list (str * value))) :
  tidy (json_dumps sort_keys l).
Proof.
  unfold json_dumps.
  apply tidy_app; [apply tidy_literal; reflexivity|].
  apply tidy_app; [|apply tidy_literal; reflexivity].
  apply tidy_join; [apply tidy_literal; reflexivity|].
  apply Forall_forall. intros x Hx. apply in_map_iff in Hx.
  destruct Hx as (kvs & <- & _). apply tidy_json_dict.
Qed.

(** C7. Round trip: when [main] has written [frequencies.json], reading
    the text back as JSON gives an array with one object for each kept
    dictionary, in the sorted order; each object has exactly the keys
    [description], [freqStart], [freqStop] and [url], in this
    (lexicographic) order, with the values of the dictionary. *)
Theorem output_round_trip (w : world) (content : str) :
  db_csv w = Some content ->
  existsb malformed (file_lines content) = false ->
  exists text,
    frequencies_json (snd (main w)) = Some text
    /\ json_loads text = Some (JArr (map json_of_record (output_array content))).
Proof.
  intros D X. destruct (main_ok w content D X) as (w' & E & F & _).
  rewrite E. simpl. eexists. split; [exact F|].
  apply json_loads_records.
Qed.

(** C8. The text [main] writes has no indentation: it is one line that
    starts with the opening bracket, made of characters of the range
    [' '..'~'] only, so that it has no line feed, carriage return or
    tabulation anywhere; and between its tokens (outside the string
    literals) the only white space is the single space [json.dump] puts
    behind each comma and each colon. *)
Theorem output_on_one_line (w : world) (content : str) :
  db_csv w = Some content ->
  existsb malformed (file_lines content) = false ->
  exists text,
    frequencies_json (snd (main w)) = Some text
    /\ Forall (fun c => printable c = true) text
    /\ ~ In chr_LF text /\ ~ In chr_CR text /\ ~ In chr_TAB text
    /\ (exists rest, text = "["%char :: rest)
    /\ (forall prev, separator_spaces prev (between_strings Outside text) = true).
Proof.
  intros D X. destruct (main_ok w content D X) as (w' & E & F & _).
  rewrite E. simpl. eexists. split; [exact F|].
  pose proof (json_dumps_printable true (map items (output_array content))) as P.
  split; [exact P|].
  rewrite Forall_forall in P.
  repeat split; try (intros H; apply P in H; discriminate).
  - eexists. reflexivity.
  - apply tidy_json_dumps.
Qed.

(** C3 (as the script behaves). For the input line
    ["FM Radio*88000000*108000000*Broadcast*x*x*x*http://example.com/fm\n"]
    the script writes exactly one entry, with [description] ["FM Radio"],
    [freqStart] 88000000, [freqStop] 108000000 and, since the eighth field
    is the last one of the line, the [url] ["http://example.com/fm\n"]:
    the line feed of the line is part of it. *)
Theorem fm_radio_entry :
  output_array fm_radio_line = [fm_radio_record]
  /\ fst (main (initial fm_radio_line)) = Ok tt
  /\ frequencies_json (snd (main (initial fm_radio_line)))
     = Some (json_dumps true [items fm_radio_record])
  /\ json_dumps true [items fm_radio_record] = fm_radio_text
  /\ json_loads fm_radio_text
     = Some (JArr [JObj [ (lit "description", JStr (lit "FM Radio"));
                          (lit "freqStart", JInt 88000000);
                          (lit "freqStop", JInt 108000000);
                          (lit "url", JStr (lit "http://example.com/fm" ++ [chr_LF])) ]]).
Proof. repeat split; vm_compute; reflexivity. Qed.

(** C3 as stated fails: the entry read back from the output file is not
    the one with the [url] ["http://example.com/fm"]. *)
Lemma fm_radio_entry_differs :
  ~ (exists text,
        frequencies_json (snd (main (initial fm_radio_line))) = Some text
        /\ json_loads text = Some (JArr [json_of_record fm_radio_expected])).
Proof.
  intros (text & H1 & H2).
  assert (E : frequencies_json (snd (main (initial fm_radio_line)))
              = Some (json_dumps true [items fm_radio_record]))
    by (vm_compute; reflexivity).
  rewrite E in H1. injection H1 as <-.
  vm_compute in H2. discriminate.
Qed.

(** ** The statements at concrete inputs *)


Lemma output_sorted_stable_witness :
  fst (main (initial sample_db)) = Ok tt
  /\ frequencies_json (snd (main (initial sample_db)))
     = Some (json_dumps true (map items (output_array sample_db))).
Proof.
  apply (proj1 (output_sorted_stable sample_db) (initial sample_db)).
  - reflexivity.
  - vm_compute. reflexivity.
Defined.


Lemma malformed_field_raises_witness :
  fst (main (initial malformed_line)) = Raise ValueError
  /\ frequencies_json (snd (main (initial malformed_line))) = None.
Proof.
  destruct (proj2 malformed_field_raises (initial malformed_line) malformed_line eq_refl)
    as (R & F & _).
  assert (H : fst (main (initial malformed_line)) = Raise ValueError).
  { apply R. exists malformed_line. split; [left; reflexivity|].
    split; [vm_compute; lia|]. left. vm_compute. reflexivity. }
  split; [exact H|]. rewrite (F H). reflexivity.
Defined.

Lemma short_line_skipped_witness :
  loop_body short_line [] (initial sample_db) = (Ok [], initial sample_db)
  /\ stdout (snd (loop_body short_line [] (initial sample_db))) = stdout (initial sample_db)
  /\ int_calls (snd (loop_body short_line [] (initial sample_db)))
     = int_calls (initial sample_db).
Proof.
  apply (short_line_skipped short_line [] (initial sample_db)).
  vm_compute. lia.
Defined.

Lemma output_round_trip_witness :
  exists text,
    frequencies_json (snd (main (initial sample_db))) = Some text
    /\ json_loads text = Some (JArr (map json_of_record (output_array sample_db))).
Proof.
  apply (output_round_trip (initial sample_db) sample_db).
  - reflexivity.
  - vm_compute. reflexivity.
Defined.

Lemma output_on_one_line_witness :
  exists text,
    frequencies_json (snd (main (initial sample_db))) = Some text
    /\ Forall (fun c => printable c = true) text
    /\ ~ In chr_LF text /\ ~ In chr_CR text /\ ~ In chr_TAB text
    /\ (exists rest, text = "["%char :: rest)
    /\ (forall prev, separator_spaces prev (between_strings Outside text) = true).
Proof.
  apply (output_on_one_line (initial sample_db) sample_db).
  - reflexivity.
  - vm_compute. reflexivity.
Defined.

Lemma nothing_kept_writes_empty_array_witness :
  output_array (invalid_line ++ short_line) = []
  /\ fst (main (initial (invalid_line ++ short_line))) = Ok tt
  /\ frequencies_json (snd (main (initial (invalid_line ++ short_line)))) = Some (lit "[]").
Proof.
  apply (proj1 nothing_kept_writes_empty_array
               (initial (invalid_line ++ short_line)) (invalid_line ++ short_line)).
  - reflexivity.
  - replace (file_lines (invalid_line ++ short_line)) with [invalid_line; short_line]
      by (vm_compute; reflexivity).
    constructor; [|constructor; [|constructor]].
    + right. split; vm_compute; reflexivity.
    + left. vm_compute. lia.
Defined.

Lemma inverted_bounds_kept_last_witness :
  bandwidth (record_of inverted_line 500 100) < 0
  /\ exists entries,
       frequencies_json (snd (main (initial sample_db)))
       = Some (json_dumps true (map items entries))
       /\ In (record_of inverted_line 500 100) entries
       /\ (forall l1 l2,
              entries = l1 ++ record_of inverted_line 500 100 :: l2 ->
              Forall (fun x => bandwidth x < 0) l2)
       /\ (forall l1 x l2,
              entries = l1 ++ x :: l2 ->
              0 <= bandwidth x -> ~ In (record_of inverted_line 500 100) l1).
Proof.
  assert (L : (8 <= List.length (fields inverted_line))%nat) by (vm_compute; lia).
  assert (Ha : py_int (field 1 inverted_line) = Some 500) by (vm_compute; reflexivity).
  assert (Hb : py_int (field 2 inverted_line) = Some 100) by (vm_compute; reflexivity).
  assert (Lt : 100 < 500) by lia.
  destruct (inverted_bounds_kept_last inverted_line 500 100 L Ha Hb Lt) as (_ & B & H).
  split; [exact B|].
  assert (I : In inverted_line (file_lines sample_db)).
  { replace (file_lines sample_db)
      with [fm_radio_line; invalid_line; short_line; inverted_line]
      by (vm_compute; reflexivity).
    right. right. right. left. reflexivity. }
  apply (H (initial sample_db) sample_db); [reflexivity|exact I|].
  vm_compute. reflexivity.
Defined.

(** What the script prints for the line with the two zero frequencies:
    the dictionary in insertion order, its strings as [repr] shows them. *)
Example invalid_line_stdout :
  stdout (snd (main (initial invalid_line)))
  = lit "Skipping: {'freqStart': 0, 'freqStop': 0, 'description': 'Invalid', 'url': 'http://example.com/invalid\n'}"
    ++ [chr_LF].
Proof. vm_compute. reflexivity. Qed.

(** The order of the output for [sample_db]: the wider band first, the
    negative bandwidth last. *)
Example sample_db_output :
  map bandwidth (output_array sample_db) = [20000000; -400].
Proof. vm_compute. reflexivity. Qed.

(** * Further properties of the script *)

(** ** Exceptions and what a run leaves untouched *)

Lemma loop_body_raise_stdout (line : str) (out : list SignalRecord) (w : world) :
  malformed line = true ->
  exists w',
    loop_body line out w = (Raise ValueError, w')
    /\ db_csv w' = db_csv w
    /\ frequencies_json w' = frequencies_json w
    /\ stdout w' = stdout w.
Proof.
  intros H. apply malformed_iff in H. destruct H as [L H].
  rewrite (loop_body_long line out w) by lia.
  destruct (py_int (field 1 line)) as [a|].
  - destruct (py_int (field 2 line)) as [b|].
    + destruct H; discriminate.
    + eexists; split; [reflexivity|]. auto.
  - eexists; split; [reflexivity|]. auto.
Qed.

Lemma loop_body_outcome (line : str) (out : list SignalRecord) (w : world) :
  fst (loop_body line out w) = Ok (out ++ retained line)
  \/ fst (loop_body line out w) = Raise ValueError.
Proof.
  destruct (malformed line) eqn:M.
  - destruct (loop_body_raise line out w M) as (w' & E & _). rewrite E. auto.
  - destruct (loop_body_ok line out w M) as (w' & E & _). rewrite E. auto.
Qed.

Lemma for_each_raise_at (pre : list str) (bad : str) (post : list str) :
  forall (acc : list SignalRecord) (w : world),
    forallb (fun l => negb (malformed l)) pre = true ->
    malformed bad = true ->
    exists w',
      for_each (pre ++ bad :: post) loop_body acc w = (Raise ValueError, w')
      /\ db_csv w' = db_csv w
      /\ frequencies_json w' = frequencies_json w
      /\ stdout w' = stdout w ++ flat_map skipped pre.
Proof.
  induction pre as [|l pre IH]; intros acc w P B; simpl.
  - destruct (loop_body_raise_stdout bad acc w B) as (w' & E & D & F & S).
    exists w'. unfold bind. rewrite E, app_nil_r. auto.
  - simpl in P. apply andb_true_iff in P. destruct P as [Pl P].
    apply negb_true_iff in Pl.
    destruct (loop_body_ok l acc w Pl) as (w1 & E1 & D1 & F1 & S1).
    destruct (IH (acc ++ retained l) w1 P B) as (w2 & E2 & D2 & F2 & S2).
    exists w2. unfold bind. rewrite E1, E2.
    repeat split; try congruence.
    rewrite S2, S1, <- app_assoc. reflexivity.
Qed.

Lemma first_malformed (lines : list str) :
  existsb malformed lines = true ->
  exists pre bad post,
    lines = pre ++ bad :: post
    /\ forallb (fun l => negb (malformed l)) pre = true
    /\ malformed bad = true.
Proof.
  induction lines as [|l ls IH]; simpl; [discriminate|].
  destruct (malformed l) eqn:M; simpl.
  - intros _. exists [], l, ls. auto.
  - intros H. destruct (IH H) as (pre & bad & post & -> & P & B).
    exists (l :: pre), bad, post. simpl. rewrite M. auto.
Qed.

(** What [main] does, whichever way it ends. *)
Lemma main_cases (w : world) :
  (db_csv w = None /\ main w = (Raise FileNotFoundError, w))
  \/ (exists content w',
         db_csv w = Some content
         /\ existsb malformed (file_lines content) = false
         /\ main w = (Ok tt, w')
         /\ db_csv w' = db_csv w
         /\ frequencies_json w' = Some (json_dumps true (map items (output_array content)))
         /\ stdout w' = stdout w ++ flat_map skipped (file_lines content))
  \/ (exists content pre bad post w',
         db_csv w = Some content
         /\ file_lines content = pre ++ bad :: post
         /\ forallb (fun l => negb (malformed l)) pre = true
         /\ malformed bad = true
         /\ main w = (Raise ValueError, w')
         /\ db_csv w' = db_csv w
         /\ frequencies_json w' = frequencies_json w
         /\ stdout w' = stdout w ++ flat_map skipped pre).
Proof.
  destruct (db_csv w) as [content|] eqn:D.
  - right. destruct (existsb malformed (file_lines content)) eqn:X.
    + right. destruct (first_malformed _ X) as (pre & bad & post & E & P & B).
      destruct (for_each_raise_at pre bad post [] w P B) as (w' & R & D' & F' & S').
      exists content, pre, bad, post, w'.
      unfold main, bind, open_db_csv. rewrite D, E, R.
      repeat split; auto. congruence.
    + left. pose proof X as X'. rewrite malformed_dichotomy in X'.
      apply negb_false_iff in X'.
      destruct (for_each_ok (file_lines content) [] w X') as (w1 & E1 & D1 & F1 & S1).
      eexists content, _. unfold main, bind, open_db_csv. rewrite D, E1.
      repeat split; simpl; auto. congruence.
  - left. split; [reflexivity|]. unfold main, bind, open_db_csv. rewrite D. reflexivity.
Qed.

(** X1. The guard [len(data) > 7] keeps every index in range: on no line
    does the loop body raise [IndexError], and [main] never ends with it;
    whereas on a line that fails the guard, [data[7]] alone would raise
    it. *)
Theorem index_never_out_of_range :
  (forall line out w, fst (loop_body line out w) <> Raise IndexError)
  /\ (forall w, fst (main w) <> Raise IndexError)
  /\ (forall line out w,
         (List.length (fields line) <= 7)%nat ->
         getitem (fields line) 7 w = (Raise IndexError, w)
         /\ loop_body line out w = (Ok out, w)).
Proof.
  split; [|split].
  - intros line out w. destruct (loop_body_outcome line out w) as [H|H];
      rewrite H; discriminate.
  - intros w. destruct (main_cases w)
      as [[D E]|[(c & w' & D & _ & E & _)
                |(c & pre & bad & post & w' & D & _ & _ & _ & E & _)]];
      rewrite E; simpl; discriminate.
  - intros line out w L. split; [|apply loop_body_short, L].
    unfold getitem.
    assert (nth_error (fields line) 7 = None) as -> by (apply nth_error_None; lia).
    reflexivity.
Qed.

(** X2. Whatever happens, [main] does not touch [db.csv] and only adds to
    standard output; and unless it ends normally it leaves
    [frequencies.json] as it was (absent, or with its old content). *)
Theorem main_preserves (w : world) :
  db_csv (snd (main w)) = db_csv w
  /\ (exists t, stdout (snd (main w)) = stdout w ++ t)
  /\ (fst (main w) <> Ok tt ->
      frequencies_json (snd (main w)) = frequencies_json w).
Proof.
  destruct (main_cases w)
    as [[D E]|[(c & w' & _ & _ & E & D' & _ & S)
              |(c & pre & bad & post & w' & _ & _ & _ & _ & E & D' & F & S)]];
    rewrite E; simpl.
  - repeat split; auto. exists []. rewrite app_nil_r. reflexivity.
  - repeat split; eauto. congruence.
  - repeat split; eauto.
Qed.

(** X3. When a line is malformed, what had been printed for the lines in
    front of the first such line stays printed, nothing is printed for the
    lines behind it, and nothing is written. *)
Theorem failure_keeps_earlier_diagnostics
        (w : world) (content : str) (pre : list str) (bad : str) (post : list str) :
  db_csv w = Some content ->
  file_lines content = pre ++ bad :: post ->
  forallb (fun l => negb (malformed l)) pre = true ->
  malformed bad = true ->
  fst (main w) = Raise ValueError
  /\ stdout (snd (main w)) = stdout w ++ flat_map skipped pre
  /\ frequencies_json (snd (main w)) = frequencies_json w.
Proof.
  intros D E P B.
  destruct (for_each_raise_at pre bad post [] w P B) as (w' & R & D' & F' & S').
  unfold main, bind, open_db_csv. rewrite D, E, R. simpl. auto.
Qed.

(** ** The run as a whole *)

Lemma retained_kept_line (line : str) :
  retained line
  = if kept_line line
    then match py_int (field 1 line), py_int (field 2 line) with
         | Some a, Some b => [record_of line a b]
         | _, _ => []
         end
    else [].
Proof.
  unfold retained, kept_line.
  destruct (7 <? List.length (fields line))%nat; [|reflexivity].
  destruct (py_int (field 1 line)) as [a|]; [|reflexivity].
  destruct (py_int (field 2 line)) as [b|]; [|reflexivity].
  simpl. destruct ((a =? 0) && (b =? 0)); reflexivity.
Qed.

Lemma retained_length (line : str) :
  List.length (retained line) = if kept_line line then 1%nat else 0%nat.
Proof.
  unfold retained, kept_line.
  destruct (7 <? List.length (fields line))%nat; [|reflexivity].
  destruct (py_int (field 1 line)) as [a|]; [|reflexivity].
  destruct (py_int (field 2 line)) as [b|]; [|reflexivity].
  simpl. destruct ((a =? 0) && (b =? 0)); reflexivity.
Qed.

Lemma skipped_zero_zero (line : str) :
  skipped line = if zero_zero line then diagnostic (record_of line 0 0) else [].
Proof.
  unfold skipped, zero_zero.
  destruct (7 <? List.length (fields line))%nat; [|reflexivity].
  destruct (py_int (field 1 line)) as [a|]; [|reflexivity].
  destruct (py_int (field 2 line)) as [b|]; [|reflexivity].
  simpl.
  destruct (Z.eqb_spec a 0) as [->|]; [|reflexivity].
  destruct (Z.eqb_spec b 0) as [->|]; reflexivity.
Qed.

Lemma flat_map_skipped (lines : list str) :
  flat_map skipped lines
  = flat_map (fun l => diagnostic (record_of l 0 0)) (filter zero_zero lines).
Proof.
  induction lines as [|l ls IH]; simpl; [reflexivity|].
  rewrite skipped_zero_zero, IH. destruct (zero_zero l); reflexivity.
Qed.

Lemma diagnostic_one_line (r : SignalRecord) :
  count_occ ascii_dec (diagnostic r) chr_LF = 1%nat.
Proof.
  unfold diagnostic. rewrite !count_occ_app.
  assert (count_occ ascii_dec (str_dict (items r)) chr_LF = 0%nat) as ->.
  { apply count_occ_not_In, not_LF_not_In, str_dict_not_LF. }
  reflexivity.
Qed.

(** X4. On a run that ends normally, standard output has grown by the
    diagnostics of the lines with two zero frequencies, one line of text
    for each of them, in the order of the lines in [db.csv]. *)
Theorem diagnostics_in_line_order (w : world) (content : str) :
  db_csv w = Some content ->
  existsb malformed (file_lines content) = false ->
  let dropped_lines := filter zero_zero (file_lines content) in
  let text :=
    flat_map (fun l => lit "Skipping: " ++ str_dict (items (record_of l 0 0)) ++ [chr_LF])
             dropped_lines in
  stdout (snd (main w)) = stdout w ++ text
  /\ count_occ ascii_dec text chr_LF = List.length dropped_lines.
Proof.
  intros D X dropped_lines text.
  destruct (main_ok w content D X) as (w' & E & _ & S).
  rewrite E. simpl. split.
  - rewrite S, flat_map_skipped. reflexivity.
  - subst text. induction dropped_lines as [|l ls IH]; [reflexivity|].
    cbn [flat_map List.length]. rewrite count_occ_app, IH.
    change (lit "Skipping: " ++ str_dict (items (record_of l 0 0)) ++ [chr_LF])
      with (diagnostic (record_of l 0 0)).
    rewrite diagnostic_one_line. reflexivity.
Qed.

Lemma output_array_length (content : str) :
  List.length (output_array content)
  = List.length (filter kept_line (file_lines content)).
Proof.
  unfold output_array.
  rewrite <- (Permutation_length (list_sort_reverse_perm bandwidth _)).
  induction (file_lines content) as [|l ls IH]; [reflexivity|].
  cbn [flat_map filter]. rewrite length_app, retained_length, IH.
  destruct (kept_line l); reflexivity.
Qed.

(** X5. When [main] ends normally, the list it has written to
    [frequencies.json] has exactly one entry for each kept line of
    [db.csv]: as many entries as there are lines with at least 8 fields
    and two parsed frequencies that are not both 0. *)
Theorem output_length (w : world) (content : str) :
  db_csv w = Some content ->
  fst (main w) = Ok tt ->
  exists entries,
    frequencies_json (snd (main w)) = Some (json_dumps true (map items entries))
    /\ List.length entries = List.length (filter kept_line (file_lines content)).
Proof.
  intros D H. destruct (main_normal_end w content D H) as [_ F].
  exists (output_array content). split; [exact F|]. apply output_array_length.
Qed.

Lemma output_array_entries (content : str) (r : SignalRecord) :
  In r (output_array content)
  <-> exists line a b,
        In line (file_lines content)
        /\ (8 <= List.length (fields line))%nat
        /\ py_int (field 1 line) = Some a
        /\ py_int (field 2 line) = Some b
        /\ ~ (a = 0 /\ b = 0)
        /\ r = mkRecord a b (field 0 line) (field 7 line).
Proof.
  unfold output_array. split.
  - intros H.
    apply (Permutation_in _ (Permutation_sym (list_sort_reverse_perm bandwidth _))) in H.
    apply in_flat_map in H. destruct H as (line & Hin & Hr).
    exists line. unfold retained in Hr.
    destruct (Nat.ltb_spec 7 (List.length (fields line))) as [L|L]; [|destruct Hr].
    destruct (py_int (field 1 line)) as [a|]; [|destruct Hr].
    destruct (py_int (field 2 line)) as [b|]; [|destruct Hr].
    exists a, b.
    destruct (Z.eqb_spec a 0) as [Ea|Ea], (Z.eqb_spec b 0) as [Eb|Eb];
      simpl in Hr; (destruct Hr as [<-|[]] || destruct Hr);
      repeat split; auto; lia.
  - intros (line & a & b & Hin & L & Ha & Hb & N & ->).
    eapply Permutation_in; [apply list_sort_reverse_perm|].
    apply in_flat_map. exists line. split; [exact Hin|].
    rewrite (retained_qualifying line a b L Ha Hb N). left. reflexivity.
Qed.

(** X6. When [main] ends normally, every entry of the list it has
    written to [frequencies.json] comes from a line of [db.csv] with at
    least 8 fields: its [description] and [url] are the fields 0 and 7 of
    that line, its frequencies are what [int] makes of the fields 1 and
    2, and they are not both 0; and every such line has its entry. *)
Theorem output_entries_come_from_lines (w : world) (content : str) :
  db_csv w = Some content ->
  fst (main w) = Ok tt ->
  exists entries,
    frequencies_json (snd (main w)) = Some (json_dumps true (map items entries))
    /\ forall r,
         In r entries
         <-> exists line a b,
               In line (file_lines content)
               /\ (8 <= List.length (fields line))%nat
               /\ py_int (field 1 line) = Some a
               /\ py_int (field 2 line) = Some b
               /\ ~ (a = 0 /\ b = 0)
               /\ r = mkRecord a b (field 0 line) (field 7 line).
Proof.
  intros D H. destruct (main_normal_end w content D H) as [_ F].
  exists (output_array content). split; [exact F|].
  intros r. apply output_array_entries.
Qed.

(** ** Fields *)

Lemma split_nonempty (sep : ascii) (s : str) : split sep s <> [].
Proof.
  destruct s as [|c s]; simpl; [discriminate|].
  destruct (Ascii.eqb c sep); [discriminate|].
  destruct (split sep s); discriminate.
Qed.

Lemma join_cons_head (sep : str) (c : ascii) (f : str) (fs : list str) :
  join sep ((c :: f) :: fs) = c :: join sep (f :: fs).
Proof. destruct fs; reflexivity. Qed.

Lemma split_join (sep : ascii) (s : str) : join [sep] (split sep s) = s.
Proof.
  induction s as [|c s IH]; [reflexivity|]. simpl split.
  destruct (Ascii.eqb_spec c sep) as [->|N].
  - pose proof (split_nonempty sep s) as NE.
    destruct (split sep s) as [|f fs]; [congruence|].
    change (join [sep] ([] :: f :: fs)) with (sep :: join [sep] (f :: fs)).
    rewrite IH. reflexivity.
  - pose proof (split_nonempty sep s) as NE.
    destruct (split sep s) as [|f fs]; [congruence|].
    rewrite join_cons_head, IH. reflexivity.
Qed.

Lemma split_length (sep : ascii) (s : str) :
  List.length (split sep s) = S (count_occ ascii_dec s sep).
Proof.
  induction s as [|c s IH]; [reflexivity|]. simpl split.
  destruct (Ascii.eqb_spec c sep) as [->|N].
  - rewrite count_occ_cons_eq by reflexivity. simpl. rewrite IH. reflexivity.
  - rewrite count_occ_cons_neq by exact N.
    pose proof (split_nonempty sep s) as NE.
    destruct (split sep s) as [|f fs]; [congruence|]. exact IH.
Qed.

Lemma split_chars (sep : ascii) (s : str) :
  forall f c, In f (split sep s) -> In c f -> In c s /\ c <> sep.
Proof.
  induction s as [|d s IH]; intros f c Hf Hc.
  - destruct Hf as [<-|[]]. destruct Hc.
  - simpl in Hf. destruct (Ascii.eqb_spec d sep) as [->|N].
    + destruct Hf as [<-|Hf]; [destruct Hc|].
      destruct (IH f c Hf Hc). split; [right|]; assumption.
    + pose proof (split_nonempty sep s) as NE.
      destruct (split sep s) as [|f0 fs]; [congruence|].
      destruct Hf as [<-|Hf].
      * destruct Hc as [<-|Hc]; [split; [left; reflexivity|exact N]|].
        destruct (IH f0 c (or_introl eq_refl) Hc). split; [right|]; assumption.
      * destruct (IH f c (or_intror Hf) Hc). split; [right|]; assumption.
Qed.

(** X7. Splitting loses nothing: the fields of a line, joined with ['*']
    again, are the line; no field has a ['*']; and a line has one field
    more than it has ['*'], so that the script takes up exactly the lines
    with at least seven ['*']. *)
Theorem fields_round_trip (line : str) :
  join (lit "*") (fields line) = line
  /\ (forall f, In f (fields line) -> ~ In "*"%char f)
  /\ List.length (fields line) = S (count_occ ascii_dec line "*"%char)
  /\ ((7 <? List.length (fields line))%nat = true
      <-> (7 <= count_occ ascii_dec line "*"%char)%nat).
Proof.
  unfold fields. split; [apply split_join|]. split; [|split].
  - intros f Hf Hc. destruct (split_chars _ _ _ _ Hf Hc) as [_ N]. congruence.
  - apply split_length.
  - rewrite split_length, Nat.ltb_lt. lia.
Qed.

Lemma nth_In_default (l : list str) (i : nat) :
  nth i l [] = [] \/ In (nth i l []) l.
Proof.
  destruct (Nat.lt_ge_cases i (List.length l)) as [H|H].
  - right. apply nth_In, H.
  - left. apply nth_overflow, H.
Qed.

Lemma field_chars (line : str) (i : nat) (c : ascii) :
  In c (field i line) -> In c line /\ c <> "*"%char.
Proof.
  unfold field. intros H.
  destruct (nth_In_default (fields line) i) as [E|E].
  - rewrite E in H. destruct H.
  - exact (split_chars _ _ _ _ E H).
Qed.

Lemma keepends_chars (s : str) :
  forall (l : str) (c : ascii), In l (keepends s) -> In c l -> In c s.
Proof.
  induction s as [|d s IH]; intros l c Hin Hc; [destruct Hin|].
  simpl in Hin. destruct (Ascii.eqb_spec d chr_LF) as [->|N].
  - destruct Hin as [<-|Hin]; [destruct Hc as [<-|[]]; left; reflexivity|].
    right. eapply IH; eauto.
  - destruct (keepends s) as [|l0 ls] eqn:K.
    + destruct Hin as [<-|[]]. destruct Hc as [<-|[]]. left. reflexivity.
    + destruct Hin as [<-|Hin].
      * destruct Hc as [<-|Hc]; [left; reflexivity|].
        right. apply (IH l0 c); [left; reflexivity|exact Hc].
      * right. apply (IH l c); [right; exact Hin|exact Hc].
Qed.

Lemma output_array_text (content : str) (r : SignalRecord) :
  In r (output_array content) ->
  ~ In "*"%char (description r) /\ ~ In "*"%char (url r)
  /\ (forall c, In c (description r) \/ In c (url r) ->
                In c (universal_newlines content)).
Proof.
  intros H. unfold output_array in H.
  apply (Permutation_in _ (Permutation_sym (list_sort_reverse_perm bandwidth _))) in H.
  apply in_flat_map in H. destruct H as (line & Hin & Hr).
  assert (L : forall c, In c line -> In c (universal_newlines content))
    by (intros c Hc; exact (keepends_chars _ _ _ Hin Hc)).
  rewrite retained_kept_line in Hr.
  destruct (kept_line line); [|destruct Hr].
  destruct (py_int (field 1 line)) as [a|]; [|destruct Hr].
  destruct (py_int (field 2 line)) as [b|]; [|destruct Hr].
  destruct Hr as [<-|[]]. simpl.
  split; [|split].
  - intros Hc. apply field_chars in Hc. destruct Hc as [_ N]. congruence.
  - intros Hc. apply field_chars in Hc. destruct Hc as [_ N]. congruence.
  - intros c [Hc|Hc]; apply field_chars in Hc; destruct Hc as [Hc _]; auto.
Qed.

(** X8. When [main] ends normally, no [description] and no [url] of the
    list it has written to [frequencies.json] has a ['*'], and each of
    their characters is a character of [db.csv], with the line ends read
    as line feeds. *)
Theorem output_text_from_db (w : world) (content : str) :
  db_csv w = Some content ->
  fst (main w) = Ok tt ->
  exists entries,
    frequencies_json (snd (main w)) = Some (json_dumps true (map items entries))
    /\ forall r,
         In r entries ->
         ~ In "*"%char (description r) /\ ~ In "*"%char (url r)
         /\ (forall c, In c (description r) \/ In c (url r) ->
                       In c (universal_newlines content)).
Proof.
  intros D H. destruct (main_normal_end w content D H) as [_ F].
  exists (output_array content). split; [exact F|].
  intros r. apply output_array_text.
Qed.

(** ** Lines *)

Lemma keepends_concat (s : str) : List.concat (keepends s) = s.
Proof.
  induction s as [|c s IH]; [reflexivity|]. simpl keepends.
  destruct (Ascii.eqb c chr_LF).
  - simpl. rewrite IH. reflexivity.
  - destruct (keepends s) as [|l ls]; simpl in *; rewrite <- IH; reflexivity.
Qed.

Lemma keepends_shape (s : str) :
  forall l, In l (keepends s) ->
            l <> []
            /\ exists body, ~ In chr_LF body /\ (l = body ++ [chr_LF] \/ l = body).
Proof.
  induction s as [|c s IH]; intros l Hin; [destruct Hin|].
  simpl in Hin. destruct (Ascii.eqb_spec c chr_LF) as [->|N].
  - destruct Hin as [<-|Hin]; [|apply IH, Hin].
    split; [discriminate|]. exists []. split; [intros []|left; reflexivity].
  - destruct (keepends s) as [|l0 ls] eqn:K.
    + destruct Hin as [<-|[]]. split; [discriminate|].
      exists [c]. split; [|right; reflexivity].
      intros [E|[]]. congruence.
    + destruct Hin as [<-|Hin]; [|apply IH; right; exact Hin].
      destruct (IH l0 (or_introl eq_refl)) as (_ & body & Hb & Hl).
      split; [discriminate|]. exists (c :: body). split.
      * intros [E|E]; [congruence|auto].
      * destruct Hl as [->| ->]; [left|right]; reflexivity.
Qed.

Lemma universal_newlines_no_CR (s : str) : ~ In chr_CR (universal_newlines s).
Proof.
  assert (forall n s, (List.length s <= n)%nat -> ~ In chr_CR (universal_newlines s)) as H.
  { clear s. induction n as [|n IH]; intros s L.
    - destruct s; [intros []|simpl in L; lia].
    - destruct s as [|c s]; [intros []|]. simpl in L. simpl universal_newlines.
      destruct (Ascii.eqb_spec c chr_CR) as [->|N].
      + destruct s as [|d s]; [intros [E|[]]; discriminate|].
        simpl in L.
        destruct (Ascii.eqb d chr_LF);
          (intros [E|E]; [discriminate|]; revert E; apply IH; simpl; lia).
      + intros [E|E]; [congruence|]. revert E. apply IH. lia. }
  apply (H (List.length s)). lia.
Qed.

Lemma universal_newlines_id (s : str) : ~ In chr_CR s -> universal_newlines s = s.
Proof.
  induction s as [|c s IH]; intros H; [reflexivity|]. simpl.
  destruct (Ascii.eqb_spec c chr_CR) as [->|N].
  - exfalso. apply H. left. reflexivity.
  - rewrite IH; [reflexivity|]. intros E. apply H. right. exact E.
Qed.

Lemma universal_newlines_crlf (s : str) :
  ~ In chr_CR s -> universal_newlines (to_crlf s) = s.
Proof.
  induction s as [|c s IH]; intros H; [reflexivity|].
  assert (Hs : ~ In chr_CR s) by (intros E; apply H; right; exact E).
  unfold to_crlf. cbn [flat_map]. fold (to_crlf s).
  destruct (Ascii.eqb_spec c chr_LF) as [->|N].
  - simpl. rewrite (IH Hs). reflexivity.
  - simpl. destruct (Ascii.eqb_spec c chr_CR) as [->|N'].
    + exfalso. apply H. left. reflexivity.
    + rewrite (IH Hs). reflexivity.
Qed.

(** X9. The lines the script iterates over, put one behind the other,
    are the content of [db.csv] with its line ends read as line feeds; no
    line is empty, a line has a line feed at its end or none at all, and
    no carriage return is left in any line. *)
Theorem file_lines_partition (content : str) :
  List.concat (file_lines content) = universal_newlines content
  /\ ~ In chr_CR (universal_newlines content)
  /\ (forall line, In line (file_lines content) ->
        line <> []
        /\ ~ In chr_CR line
        /\ exists body, ~ In chr_LF body /\ (line = body ++ [chr_LF] \/ line = body)).
Proof.
  unfold file_lines. split; [apply keepends_concat|].
  split; [apply universal_newlines_no_CR|].
  intros line Hin. destruct (keepends_shape _ _ Hin) as [NE S].
  split; [exact NE|]. split; [|exact S].
  intros Hc. apply (universal_newlines_no_CR content).
  exact (keepends_chars _ _ _ Hin Hc).
Qed.

Lemma split_plain (sep : ascii) (t : str) : ~ In sep t -> split sep t = [t].
Proof.
  induction t as [|c t IH]; intros H; [reflexivity|]. simpl.
  destruct (Ascii.eqb_spec c sep) as [->|N].
  - exfalso. apply H. left. reflexivity.
  - rewrite IH; [reflexivity|]. intros E. apply H. right. exact E.
Qed.

Lemma split_body_fields (sep c0 : ascii) (t : str) :
  ~ In sep t ->
  forall (body : str) (i : nat),
    ~ In c0 body ->
    (S i < List.length (split sep (body ++ t)))%nat ->
    ~ In c0 (nth i (split sep (body ++ t)) []).
Proof.
  intros Ht. induction body as [|d b IH]; intros i Hb L.
  - simpl in L. rewrite (split_plain sep t Ht) in L. simpl in L. lia.
  - assert (Hd : d <> c0) by (intros E; apply Hb; left; exact E).
    assert (Hb' : ~ In c0 b) by (intros E; apply Hb; right; exact E).
    simpl app in *. simpl split in *.
    destruct (Ascii.eqb d sep).
    + destruct i as [|j]; [intros []|]. simpl in *. apply IH; [exact Hb'|lia].
    + destruct (split sep (b ++ t)) as [|f fs] eqn:E.
      * simpl in L. lia.
      * destruct i as [|j].
        -- simpl in *. intros [H|H]; [congruence|].
           exact (IH 0%nat Hb' L H).
        -- simpl in *. apply (IH (S j) Hb'). simpl. lia.
Qed.

Lemma join_In_nth (sep : str) (c : ascii) (parts : list str) :
  In c (join sep parts) ->
  In c sep \/ exists i, (i < List.length parts)%nat /\ In c (nth i parts []).
Proof.
  induction parts as [|p ps IH]; [intros []|].
  cbn [join]. destruct ps as [|q ps].
  - intros H. right. exists 0%nat. simpl. split; [lia|exact H].
  - rewrite !in_app_iff. intros [H|[H|H]].
    + right. exists 0%nat. simpl. split; [lia|exact H].
    + left. exact H.
    + destruct (IH H) as [H'|(i & Hi & H')]; [left; exact H'|].
      right. exists (S i). split; [simpl in *; lia|exact H'].
Qed.

(** X10. In a line of [db.csv], the line feed that ends the line can only
    be in the last field.  So a [description] never has one, a [url]
    taken from a line with more than 8 fields has none, and the [url]
    taken from a line with exactly 8 fields ends up with the line feed of
    its line whenever the line has one. *)
Theorem line_feed_in_last_field_only (content line : str) :
  In line (file_lines content) ->
  (forall i, (S i < List.length (fields line))%nat -> ~ In chr_LF (field i line))
  /\ (forall n, List.length (fields line) = S n ->
                (In chr_LF (field n line) <-> In chr_LF line))
  /\ ((8 <= List.length (fields line))%nat -> ~ In chr_LF (field 0 line))
  /\ ((9 <= List.length (fields line))%nat -> ~ In chr_LF (field 7 line)).
Proof.
  intros Hin.
  assert (P : forall i, (S i < List.length (fields line))%nat ->
                        ~ In chr_LF (field i line)).
  { unfold file_lines in Hin.
    destruct (keepends_shape _ _ Hin) as (_ & body & Hb & Hl).
    intros i L. unfold field, fields in *.
    destruct Hl as [->| ->].
    - apply split_body_fields; [|exact Hb|exact L].
      intros [E|[]]. discriminate.
    - pose proof (split_body_fields "*"%char chr_LF [] (fun F => F) body i Hb) as Q.
      rewrite app_nil_r in Q. exact (Q L). }
  split; [exact P|]. split; [|split; intros; apply P; lia].
  intros n L. split.
  - intros H. apply field_chars in H. tauto.
  - intros H. pose proof (split_join "*"%char line) as J. fold (fields line) in J.
    rewrite <- J in H. apply join_In_nth in H.
    destruct H as [[E|[]]|(i & Hi & H)]; [discriminate|].
    destruct (Nat.eq_dec i n) as [->|Ne]; [exact H|].
    exfalso. apply (P i); [lia|exact H].
Qed.

(** ** What the output depends on *)

Lemma main_same_lines (w1 w2 : world) (c1 c2 : str) :
  db_csv w1 = Some c1 -> db_csv w2 = Some c2 ->
  file_lines c1 = file_lines c2 ->
  fst (main w1) = fst (main w2)
  /\ (fst (main w1) = Ok tt ->
      frequencies_json (snd (main w1)) = frequencies_json (snd (main w2))).
Proof.
  intros D1 D2 E.
  destruct (existsb malformed (file_lines c1)) eqn:X.
  - destruct (main_raise w1 c1 D1 X) as (w1' & E1 & _).
    rewrite E in X.
    destruct (main_raise w2 c2 D2 X) as (w2' & E2 & _).
    rewrite E1, E2. simpl. split; [reflexivity|discriminate].
  - destruct (main_ok w1 c1 D1 X) as (w1' & E1 & F1 & _).
    pose proof X as X2. rewrite E in X2.
    destruct (main_ok w2 c2 D2 X2) as (w2' & E2 & F2 & _).
    rewrite E1, E2. simpl. split; [reflexivity|]. intros _.
    rewrite F1, F2. unfold output_array. rewrite E. reflexivity.
Qed.

(** X11. The outcome of [main] and the file it writes depend on the
    content of [db.csv] only, not on what was printed before or on an
    older [frequencies.json], which is overwritten.  In particular,
    running [main] again after a normal end ends normally again and
    writes the same file. *)
Theorem output_depends_on_db_csv_only :
  (forall w1 w2 : world,
      db_csv w1 = db_csv w2 ->
      fst (main w1) = fst (main w2)
      /\ (fst (main w1) = Ok tt ->
          frequencies_json (snd (main w1)) = frequencies_json (snd (main w2))))
  /\ (forall w : world,
         fst (main w) = Ok tt ->
         fst (main (snd (main w))) = Ok tt
         /\ frequencies_json (snd (main (snd (main w))))
            = frequencies_json (snd (main w))).
Proof.
  assert (A : forall w1 w2 : world,
             db_csv w1 = db_csv w2 ->
             fst (main w1) = fst (main w2)
             /\ (fst (main w1) = Ok tt ->
                 frequencies_json (snd (main w1)) = frequencies_json (snd (main w2)))).
  { intros w1 w2 D. destruct (db_csv w1) as [c|] eqn:D1.
    - apply (main_same_lines w1 w2 c c); auto.
    - unfold main, bind, open_db_csv. rewrite D1, <- D. simpl.
      split; [reflexivity|discriminate]. }
  split; [exact A|].
  intros w H.
  assert (D : db_csv w = db_csv (snd (main w))).
  { destruct (main_cases w)
      as [[_ E]|[(c & w' & _ & _ & E & D' & _)
                |(c & pre & bad & post & w' & _ & _ & _ & _ & E & D' & _)]];
      rewrite E; simpl; congruence. }
  destruct (A w (snd (main w)) D) as [A1 A2].
  split; [congruence|]. symmetry. exact (A2 H).
Qed.

(** X12. Line ends written as carriage return, line feed make no
    difference: for a content without carriage returns, the same content
    with every line feed turned into that pair gives the same lines, the
    same outcome and the same output file. *)
Theorem crlf_makes_no_difference (content : str) :
  ~ In chr_CR content ->
  file_lines (to_crlf content) = file_lines content
  /\ output_array (to_crlf content) = output_array content
  /\ (forall w1 w2 : world,
         db_csv w1 = Some content -> db_csv w2 = Some (to_crlf content) ->
         fst (main w1) = fst (main w2)
         /\ (fst (main w1) = Ok tt ->
             frequencies_json (snd (main w1)) = frequencies_json (snd (main w2)))).
Proof.
  intros H.
  assert (E : file_lines (to_crlf content) = file_lines content).
  { unfold file_lines.
    rewrite (universal_newlines_crlf content H), (universal_newlines_id content H).
    reflexivity. }
  split; [exact E|]. split.
  - unfold output_array. rewrite E. reflexivity.
  - intros w1 w2 D1 D2. apply (main_same_lines w1 w2 _ _ D1 D2). symmetry. exact E.
Qed.

(** X13. The text written to [frequencies.json] determines the list of
    entries: two lists of dictionaries with the same text are the same
    list, and the text is ["[]"] only for the empty list. *)
Theorem written_text_determines_entries (a b : list SignalRecord) :
  (json_dumps true (map items a) = json_dumps true (map items b) <-> a = b)
  /\ (json_dumps true (map items a) = lit "[]" <-> a = []).
Proof.
  assert (I : forall x y : list SignalRecord,
             json_dumps true (map items x) = json_dumps true (map items y) -> x = y).
  { intros x y H. apply (f_equal json_loads) in H.
    rewrite !json_loads_records in H. injection H as H.
    revert y H. induction x as [|r x IH]; intros [|r' y] H; try discriminate.
    - reflexivity.
    - cbn [map] in H. injection H as H1 H2 H3 H4 H5.
      f_equal; [|apply IH, H5].
      destruct r, r'. simpl in *. congruence. }
  split; split.
  - apply I.
  - intros ->. reflexivity.
  - intros H. apply (I a []). exact H.
  - intros ->. reflexivity.
Qed.

(** ** Numbers written and read *)

Lemma lstrip_plain (s : str) : Forall (fun c => is_space c = false) s -> lstrip s = s.
Proof.
  intros H. destruct H as [|c s Hc _]; [reflexivity|]. simpl. rewrite Hc. reflexivity.
Qed.

Lemma strip_plain (s : str) : Forall (fun c => is_space c = false) s -> strip s = s.
Proof.
  intros H. unfold strip. rewrite (lstrip_plain s H).
  rewrite lstrip_plain by (apply Forall_rev, H).
  apply rev_involutive.
Qed.

Lemma int_digits_nat_digits (fuel : nat) :
  forall (n : Z) (t : str),
    0 < n < 2 ^ Z.of_nat fuel ->
    exists k, forall a b,
        int_digits a b (nat_digits fuel n t) = int_digits (a * k + n) true t.
Proof.
  induction fuel as [|f IH]; intros n t H.
  - simpl in H. lia.
  - simpl nat_digits. destruct (Z.ltb_spec n 10) as [L|L].
    + exists 10. intros a b. simpl. rewrite digit_of_digit_chr by lia. reflexivity.
    + assert (Hdiv : 0 < n / 10 < 2 ^ Z.of_nat f).
      { split.
        - apply Z.div_str_pos. lia.
        - rewrite Nat2Z.inj_succ, Z.pow_succ_r in H by lia.
          apply Z.div_lt_upper_bound; lia. }
      destruct (IH (n / 10) (digit_chr (n mod 10) :: t) Hdiv) as (k & Hk).
      exists (k * 10). intros a b. rewrite Hk. simpl.
      rewrite digit_of_digit_chr by (apply Z.mod_pos_bound; lia).
      f_equal. pose proof (Z.div_mod n 10). lia.
Qed.

Lemma int_digits_positive (n : Z) :
  0 < n -> int_digits 0 false (nat_digits (digits_fuel n) n []) = Some n.
Proof.
  intros H.
  destruct (int_digits_nat_digits (digits_fuel n) n [] (digits_fuel_enough n H)) as (k & Hk).
  rewrite Hk. simpl. reflexivity.
Qed.

(** X14. The decimal text that [str] and [json.dump] write for an integer
    is a literal that [int] reads as the same integer: the frequencies of
    the output and of the diagnostics read back as the numbers the script
    had parsed. *)
Theorem int_of_str_int (z : Z) : py_int (str_int z) = Some z.
Proof.
  unfold py_int.
  rewrite strip_plain.
  2:{ apply str_int_Forall; [reflexivity|].
      apply (digit_chr_cases (fun c => is_space c = false)); reflexivity. }
  unfold str_int. destruct (Z.ltb_spec z 0) as [L|L].
  - cbn [Ascii.eqb Bool.eqb]. rewrite int_digits_positive by lia.
    simpl. f_equal. lia.
  - destruct (Z.eq_dec z 0) as [->|N]; [reflexivity|].
    pose proof (int_digits_positive z ltac:(lia)) as P.
    destruct (nat_digits_head (digits_fuel z) z [] (digits_fuel_enough z ltac:(lia)))
      as (d & s' & Hd & E & _).
    rewrite E in *.
    assert (Ascii.eqb (digit_chr d) "-"%char = false
            /\ Ascii.eqb (digit_chr d) "+"%char = false) as [M1 M2].
    { apply (digit_chr_cases
               (fun c => Ascii.eqb c "-"%char = false /\ Ascii.eqb c "+"%char = false));
        try (split; reflexivity). lia. }
    rewrite M1, M2. exact P.
Qed.

(** ** The further properties at concrete inputs *)

Lemma index_never_out_of_range_witness :
  getitem (fields short_line) 7 (initial sample_db) = (Raise IndexError, initial sample_db)
  /\ loop_body short_line [] (initial sample_db) = (Ok [], initial sample_db).
Proof.
  apply (proj2 (proj2 index_never_out_of_range) short_line [] (initial sample_db)).
  vm_compute. lia.
Defined.

Lemma main_preserves_witness :
  frequencies_json (snd (main (initial failing_db))) = frequencies_json (initial failing_db).
Proof.
  apply (proj2 (proj2 (main_preserves (initial failing_db)))).
  vm_compute. discriminate.
Defined.

Lemma failure_keeps_earlier_diagnostics_witness :
  fst (main (initial failing_db)) = Raise ValueError
  /\ stdout (snd (main (initial failing_db)))
     = stdout (initial failing_db) ++ flat_map skipped [invalid_line]
  /\ frequencies_json (snd (main (initial failing_db)))
     = frequencies_json (initial failing_db).
Proof.
  apply (failure_keeps_earlier_diagnostics
           (initial failing_db) failing_db [invalid_line] malformed_line [invalid_line]).
  - reflexivity.
  - vm_compute. reflexivity.
  - vm_compute. reflexivity.
  - vm_compute. reflexivity.
Defined.

Lemma diagnostics_in_line_order_witness :
  stdout (snd (main (initial sample_db)))
  = stdout (initial sample_db)
    ++ flat_map (fun l => lit "Skipping: " ++ str_dict (items (record_of l 0 0)) ++ [chr_LF])
                (filter zero_zero (file_lines sample_db))
  /\ count_occ ascii_dec
       (flat_map (fun l => lit "Skipping: " ++ str_dict (items (record_of l 0 0)) ++ [chr_LF])
                 (filter zero_zero (file_lines sample_db)))
       chr_LF
     = List.length (filter zero_zero (file_lines sample_db)).
Proof.
  apply (diagnostics_in_line_order (initial sample_db) sample_db).
  - reflexivity.
  - vm_compute. reflexivity.
Defined.

Lemma output_length_witness :
  exists entries,
    frequencies_json (snd (main (initial sample_db)))
    = Some (json_dumps true (map items entries))
    /\ List.length entries = List.length (filter kept_line (file_lines sample_db)).
Proof.
  apply (output_length (initial sample_db) sample_db).
  - reflexivity.
  - vm_compute. reflexivity.
Defined.

Lemma output_entries_come_from_lines_witness :
  exists entries,
    frequencies_json (snd (main (initial sample_db)))
    = Some (json_dumps true (map items entries))
    /\ forall r,
         In r entries
         <-> exists line a b,
               In line (file_lines sample_db)
               /\ (8 <= List.length (fields line))%nat
               /\ py_int (field 1 line) = Some a
               /\ py_int (field 2 line) = Some b
               /\ ~ (a = 0 /\ b = 0)
               /\ r = mkRecord a b (field 0 line) (field 7 line).
Proof.
  apply (output_entries_come_from_lines (initial sample_db) sample_db).
  - reflexivity.
  - vm_compute. reflexivity.
Defined.

Lemma output_text_from_db_witness :
  exists entries,
    frequencies_json (snd (main (initial sample_db)))
    = Some (json_dumps true (map items entries))
    /\ forall r,
         In r entries ->
         ~ In "*"%char (description r) /\ ~ In "*"%char (url r)
         /\ (forall c, In c (description r) \/ In c (url r) ->
                       In c (universal_newlines sample_db)).
Proof.
  apply (output_text_from_db (initial sample_db) sample_db).
  - reflexivity.
  - vm_compute. reflexivity.
Defined.

Lemma file_lines_partition_witness :
  fm_radio_line <> []
  /\ ~ In chr_CR fm_radio_line
  /\ exists body, ~ In chr_LF body
                  /\ (fm_radio_line = body ++ [chr_LF] \/ fm_radio_line = body).
Proof.
  apply (proj2 (proj2 (file_lines_partition sample_db)) fm_radio_line).
  vm_compute. left. reflexivity.
Defined.

Lemma line_feed_in_last_field_only_witness :
  In chr_LF (field 7 fm_radio_line) <-> In chr_LF fm_radio_line.
Proof.
  assert (I : In fm_radio_line (file_lines sample_db)) by (vm_compute; left; reflexivity).
  apply (proj1 (proj2 (line_feed_in_last_field_only sample_db fm_radio_line I)) 7%nat).
  vm_compute. reflexivity.
Defined.

Lemma output_depends_on_db_csv_only_witness :
  fst (main (snd (main (initial sample_db)))) = Ok tt
  /\ frequencies_json (snd (main (snd (main (initial sample_db)))))
     = frequencies_json (snd (main (initial sample_db))).
Proof.
  apply (proj2 output_depends_on_db_csv_only (initial sample_db)).
  vm_compute. reflexivity.
Defined.

Lemma crlf_makes_no_difference_witness :
  file_lines (to_crlf sample_db) = file_lines sample_db
  /\ output_array (to_crlf sample_db) = output_array sample_db.
Proof.
  assert (H : ~ In chr_CR sample_db).
  { assert (F : Forall (fun c => c <> chr_CR) sample_db)
      by (vm_compute; repeat (constructor; [discriminate|]); constructor).
    intros E. rewrite Forall_forall in F. exact (F _ E eq_refl). }
  destruct (crlf_makes_no_difference sample_db H) as (A & B & _).
  split; assumption.
Defined.
